(** * DeepSkies for Windows (DSWIN.C): catalogue reader, projector and paint loop

    A shallow embedding of the parts of DSWIN.C that read STARS.DAT, convert
    equatorial coordinates to pixels and paint the star field, followed by the
    properties of these functions.

    Conventions of the embedding.
    - [long] and [int] values are integers of [Z]; [long] arithmetic that can
      leave the 32-bit range is wrapped with [wrap_long].
    - A [char] array is a [list ascii] of the array's length; a C string inside
      it is read with [cstr] (the characters before the first NUL).
    - STARS.DAT is the list of its bytes.  The stream is opened with mode "r",
      which on the program's platform (16-bit Windows, Microsoft C) is text
      mode: a read delivers CR LF as LF and stops at Ctrl-Z as at end of file
      ([text_read]).
    - [double] is read as a real number of [R] in the reader, in the paint
      loop and where the conversion of a position to a pixel is stated;
      rounding is outside that model.
    - [EQConvert] and [NormalizeZeroTwoPI] are also embedded on IEEE binary64
      ([float], module [Binary64]), where every operation rounds as the
      machine rounds it.  The functions of math.h that [EQConvert] calls are
      the C library's, not the program's: they are a parameter of that
      embedding ([libm]). *)

From Stdlib Require Import String Ascii.
From Stdlib Require Import ZArith List Bool Lia.
From Stdlib Require Import Reals Lra.
From Stdlib Require Import Floats.
Import ListNotations.

Set Warnings "-inexact-float".

(** ** Characters and [char] arrays *)

Definition buf := list ascii.

Definition NUL : ascii := "000"%char.
Definition LF : ascii := "010"%char.
Definition CR : ascii := "013"%char.
Definition CTRLZ : ascii := "026"%char.
Definition SPACE : ascii := " "%char.

(** A string literal as the list of its characters. *)
Definition chars (s : string) : list ascii := list_ascii_of_string s.

(** [b[i] = c] *)
Fixpoint poke (b : buf) (i : nat) (c : ascii) : buf :=
  match b, i with
  | [], _ => []
  | _ :: t, O => c :: t
  | x :: t, S j => x :: poke t j c
  end.

(** The C string that starts at the head of [b]: the characters before the
    first NUL. *)
Fixpoint cstr (b : list ascii) : list ascii :=
  match b with
  | [] => []
  | c :: t => if Ascii.eqb c NUL then [] else c :: cstr t
  end.

(** [strlen] *)
Definition strlen (b : list ascii) : nat := length (cstr b).

(** The [n] characters [strncpy(dst, src, n)] writes: the characters of the
    string at [src] up to its NUL, then NULs up to [n].  The sources of this
    program lie inside an 80-byte array, so [src] never runs out before [n]
    characters are taken; past the end of the modelled array the padding is
    used. *)
Fixpoint strncpy_chars (n : nat) (src : list ascii) : list ascii :=
  match n with
  | O => []
  | S m =>
      match src with
      | [] => repeat NUL n
      | c :: t => if Ascii.eqb c NUL then repeat NUL n else c :: strncpy_chars m t
      end
  end.

(** [strncpy(dst, src, n)] *)
Definition strncpy (dst : buf) (src : list ascii) (n : nat) : buf :=
  strncpy_chars n src ++ skipn n dst.

(** ** Integers *)

(** A 32-bit [long] in two's complement. *)
Definition wrap_long (z : Z) : Z := ((z + 2 ^ 31) mod 2 ^ 32 - 2 ^ 31)%Z.

(** [int streclen = 61;] *)
Definition streclen : Z := 61%Z.

(** ** The stream [fp_stars] *)

(** STARS.DAT: the bytes of the file. *)
Definition store := list ascii.

(** What a text-mode read delivers from the bytes at the current position:
    CR LF is delivered as LF, and Ctrl-Z ends the file. *)
Fixpoint text_read (raw : list ascii) : list ascii :=
  match raw with
  | [] => []
  | c :: rest =>
      if Ascii.eqb c CTRLZ then []
      else
        match rest with
        | d :: _ =>
            if Ascii.eqb c CR && Ascii.eqb d LF then text_read rest
            else c :: text_read rest
        | [] => [c]
        end
  end.

(** [fseek(fp_stars, 0L, SEEK_END); floc = ftell(fp_stars);]: the length of
    the file in bytes. *)
Definition ftell_end (fp : store) : Z := Z.of_nat (length fp).

(** [fseek(fp_stars, fspot, SEEK_SET)]: fails on a negative offset; otherwise
    the stream continues with the bytes from [fspot] on (none past the end of
    the file). *)
Definition fseek_set (fp : store) (fspot : Z) : option (list ascii) :=
  if (fspot <? 0)%Z then None else Some (skipn (Z.to_nat fspot) fp).

(** The characters [fgets] stores when at most [k] may be read: it stops
    after a newline. *)
Fixpoint fgets_chars (k : nat) (input : list ascii) : list ascii :=
  match k, input with
  | O, _ => []
  | _, [] => []
  | S k', c :: t => if Ascii.eqb c LF then [c] else c :: fgets_chars k' t
  end.

(** [fgets(s, n, fp)]: at most [n - 1] characters and a terminating NUL are
    stored at the head of [s]; the rest of [s] keeps its contents.  [None] is
    the NULL result when end of file comes before any character, and [s] is
    then left as it was. *)
Definition fgets (s : buf) (n : Z) (rest : list ascii) : option buf :=
  match fgets_chars (Z.to_nat (n - 1)) (text_read rest) with
  | [] => None
  | l => Some (l ++ NUL :: skipn (S (length l)) s)
  end.

(** ** Integrity check of the data file (WM_PAINT) *)

Inductive integrity : Type :=
| DataFileError
| DataFileOK (Stars : Z).

(** [if (floc % streclen != 0) ... else DsC.Stars = floc / streclen - 5;] *)
Definition check_integrity (floc : Z) : integrity :=
  if (Z.rem floc streclen =? 0)%Z
  then DataFileOK (Z.quot floc streclen - 5)
  else DataFileError.

Definition validate (fp : store) : integrity := check_integrity (ftell_end fp).

(** ** [atof]

    The library's conversion, for the grammar of the Microsoft C run-time:
    white space, an optional sign, digits, an optional point and digits, an
    optional exponent ([e], [E], [d] or [D], an optional sign, digits).  The
    result is 0 when no number is found.  [atof_dec] gives the decimal read
    as mantissa and power of ten; [atof] is its value. *)

Definition isspace (c : ascii) : bool :=
  let n := nat_of_ascii c in
  ((9 <=? n)%nat && (n <=? 13)%nat) || (n =? 32)%nat.

Definition digit_val (c : ascii) : option Z :=
  let n := nat_of_ascii c in
  if ((48 <=? n)%nat && (n <=? 57)%nat)%bool then Some (Z.of_nat (n - 48)) else None.

Fixpoint skip_spaces (s : list ascii) : list ascii :=
  match s with
  | c :: t => if isspace c then skip_spaces t else s
  | [] => []
  end.

(** Reads a run of digits onto the accumulator [acc]; also counts them. *)
Fixpoint read_digits (acc : Z) (count : Z) (s : list ascii) : Z * Z * list ascii :=
  match s with
  | c :: t =>
      match digit_val c with
      | Some d => read_digits (10 * acc + d)%Z (count + 1)%Z t
      | None => (acc, count, s)
      end
  | [] => (acc, count, [])
  end.

(** An optional sign: [true] for a minus. *)
Definition read_sign (s : list ascii) : bool * list ascii :=
  match s with
  | c :: t =>
      if Ascii.eqb c "-"%char then (true, t)
      else if Ascii.eqb c "+"%char then (false, t)
      else (false, s)
  | [] => (false, [])
  end.

Definition is_exp_char (c : ascii) : bool :=
  Ascii.eqb c "e"%char || Ascii.eqb c "E"%char ||
  Ascii.eqb c "d"%char || Ascii.eqb c "D"%char.

(** The exponent part, 0 when there is none. *)
Definition read_exponent (s : list ascii) : Z :=
  match s with
  | c :: t =>
      if is_exp_char c then
        let (neg, t1) := read_sign t in
        let '(e, n, _) := read_digits 0 0 t1 in
        if (n =? 0)%Z then 0%Z else if neg then (- e)%Z else e
      else 0%Z
  | [] => 0%Z
  end.

Definition atof_dec (s : list ascii) : Z * Z :=
  let s0 := skip_spaces s in
  let (neg, s1) := read_sign s0 in
  let '(m1, n1, s2) := read_digits 0 0 s1 in
  let '(m2, n2, s3) :=
    match s2 with
    | c :: t => if Ascii.eqb c "."%char then read_digits m1 0 t else (m1, 0%Z, s2)
    | [] => (m1, 0%Z, s2)
    end in
  if (n1 + n2 =? 0)%Z then (0%Z, 0%Z)
  else ((if neg then - m2 else m2)%Z, (read_exponent s3 - n2)%Z).

(** The value of mantissa [m] times ten to the [e]. *)
Definition dec_value (d : Z * Z) : R :=
  let (m, e) := d in
  if (0 <=? e)%Z then IZR (m * 10 ^ e) else (IZR m / IZR (10 ^ (- e)))%R.

(** [atof(S)]: the number at the head of the C string in [S]. *)
Definition atof (S : buf) : R := dec_value (atof_dec (cstr S)).

(** ** The star record and [GetStar] *)

(** [STARDATA].  [Star_Label] is the array [char Label[17]].  [Star_Class] is
    the string [sprintf] stores at [Class]; the array has 2 bytes, and the
    terminator of a 2-character class is written behind it, which the
    embedding does not follow. *)
Record STARDATA : Type := mkSTARDATA {
  Star_Label : buf;
  Star_RA : R;
  Star_Dec : R;
  Star_Mag : R;
  Star_Class : list ascii;
  Star_PMRA : R;
  Star_PMDec : R
}.

(** The global [Star] at program start: static storage is zeroed. *)
Definition Star_initial : STARDATA :=
  mkSTARDATA (repeat NUL 17) 0 0 0 [] 0 0.

Section GetStar.

(** The automatic arrays [SL] and [S] are not initialised: their contents
    on entry to [GetStar(index)] are whatever the stack holds. *)
Variable auto_SL : Z -> buf.
Variable auto_S : Z -> buf.

(** The body of [GetStar], returning the local [error] with the new value
    of the global [Star]. *)
Definition GetStar_body (fp : store) (index : Z) (Star : STARDATA) : Z * STARDATA :=
  let fspot := wrap_long ((index + 4) * streclen) in
  match fseek_set fp fspot with
  | Some rest =>
      match fgets (auto_SL index) streclen rest with
      | Some SL =>
          (* LABEL = CHAR 1 TO 17 *)
          let Label := poke (strncpy (Star_Label Star) SL 17) 16 NUL in
          (* RA = CHAR 18 to 28 *)
          let S1 := poke (strncpy (auto_S index) (skipn 17 SL) 11) 11 NUL in
          let RA := atof S1 in
          (* DEC = CHAR 29 TO 40 *)
          let S2 := poke (strncpy S1 (skipn 28 SL) 12) 12 NUL in
          let Dec := atof S2 in
          (* MAG = CHAR 41 TO 45 *)
          let S3 := poke (strncpy S2 (skipn 40 SL) 5) 5 NUL in
          let Mag := atof S3 in
          (* CLASS = CHAR 46 TO 47 *)
          let S4 := poke (strncpy S3 (skipn 45 SL) 3) 2 NUL in
          let Class := cstr S4 in
          (* PMRA = CHAR 48 TO 56 *)
          let S5 := poke (strncpy S4 (skipn 47 SL) 9) 9 NUL in
          let PMRA := atof S5 in
          (* PMDEC = CHAR 57 TO 65 *)
          let S6 := poke (strncpy S5 (skipn 56 SL) 9) 9 NUL in
          let PMDec := atof S6 in
          (0%Z, mkSTARDATA Label RA Dec Mag Class PMRA PMDec)
      | None => (1%Z, Star)
      end
  | None => (1%Z, Star)
  end.

(** [void GetStar(index)]: the global [Star] after the call. *)
Definition GetStar (fp : store) (index : Z) (Star : STARDATA) : STARDATA :=
  snd (GetStar_body fp index Star).

End GetStar.

(** ** [rtrim] *)

(** The loop [for (i = strlen(target) - 1; i > 0; i--)]: a space at [i] is
    replaced by NUL; another character sets [i = 0], which ends the loop. *)
Fixpoint rtrim_loop (i : nat) (target : buf) : buf :=
  match i with
  | O => target
  | S j =>
      if Ascii.eqb (nth i target NUL) SPACE
      then rtrim_loop j (poke target i NUL)
      else target
  end.

(** [void rtrim(target)]: the array after the call.  For the empty string
    [strlen(target) - 1] is -1 and the loop does not run. *)
Definition rtrim (target : buf) : buf :=
  rtrim_loop (strlen target - 1) target.

(** ** The control structure and the constants *)

(** [DSCONTROL] *)
Record DSCONTROL : Type := mkDSCONTROL {
  DsC_RA : R;
  DsC_Dec : R;
  DsC_FOV : R;
  DsC_Mag : R;
  DsC_ROT : R;
  DsC_MinRA : R;
  DsC_MinDec : R;
  DsC_MaxRA : R;
  DsC_MaxDec : R;
  DsC_MaxX : Z;
  DsC_MaxY : Z;
  DsC_CRA : R;
  DsC_CDec : R;
  DsC_CX : Z;
  DsC_CY : Z;
  DsC_Stars : Z
}.

Definition PI : R := 3.141592653590%R.
Definition TWOPI : R := 6.283185307180%R.
Definition PI2 : R := 1.570796326795%R.
Definition RADS : R := 0.017453292520%R.

(** [DsC.CX = ...; DsC.CY = ...;] *)
Definition set_CX_CY (d : DSCONTROL) (X Y : Z) : DSCONTROL :=
  mkDSCONTROL (DsC_RA d) (DsC_Dec d) (DsC_FOV d) (DsC_Mag d) (DsC_ROT d)
    (DsC_MinRA d) (DsC_MinDec d) (DsC_MaxRA d) (DsC_MaxDec d)
    (DsC_MaxX d) (DsC_MaxY d) (DsC_CRA d) (DsC_CDec d) X Y (DsC_Stars d).

(** [DsC.MaxX = r.right; DsC.MaxY = r.bottom;] *)
Definition set_MaxX_MaxY (d : DSCONTROL) (X Y : Z) : DSCONTROL :=
  mkDSCONTROL (DsC_RA d) (DsC_Dec d) (DsC_FOV d) (DsC_Mag d) (DsC_ROT d)
    (DsC_MinRA d) (DsC_MinDec d) (DsC_MaxRA d) (DsC_MaxDec d)
    X Y (DsC_CRA d) (DsC_CDec d) (DsC_CX d) (DsC_CY d) (DsC_Stars d).

(** [DsC.Stars = ...;] *)
Definition set_Stars (d : DSCONTROL) (n : Z) : DSCONTROL :=
  mkDSCONTROL (DsC_RA d) (DsC_Dec d) (DsC_FOV d) (DsC_Mag d) (DsC_ROT d)
    (DsC_MinRA d) (DsC_MinDec d) (DsC_MaxRA d) (DsC_MaxDec d)
    (DsC_MaxX d) (DsC_MaxY d) (DsC_CRA d) (DsC_CDec d) (DsC_CX d) (DsC_CY d) n.

(** WM_CREATE: the five assignments to [DsC]; the other members keep what
    they hold. *)
Definition WM_CREATE (d : DSCONTROL) : DSCONTROL :=
  mkDSCONTROL 300 40 60 6.5 0
    (DsC_MinRA d) (DsC_MinDec d) (DsC_MaxRA d) (DsC_MaxDec d)
    (DsC_MaxX d) (DsC_MaxY d) (DsC_CRA d) (DsC_CDec d) (DsC_CX d) (DsC_CY d)
    (DsC_Stars d).

(** ** The math library *)

(** [(int) x]: the conversion drops the fraction.  The value is taken to fit
    an [int]; C leaves the conversion undefined otherwise. *)
Definition int_of_double (x : R) : Z :=
  if Rle_dec 0 x then Int_part x else (- Int_part (- x))%Z.

(** [atan2(y, x)], the angle of the point (x, y) in (-pi, pi]. *)
Definition atan2 (y x : R) : R :=
  if Rlt_dec 0 x then atan (y / x)
  else if Rlt_dec x 0 then
    (if Rle_dec 0 y then atan (y / x) + Rtrigo1.PI else atan (y / x) - Rtrigo1.PI)%R
  else if Rlt_dec 0 y then (Rtrigo1.PI / 2)%R
  else if Rlt_dec y 0 then (- (Rtrigo1.PI / 2))%R
  else 0%R.

(** The calls of [EQConvert] that the library answers with a domain error
    for some arguments, as they are made. *)
Inductive libm_call : Type :=
| call_atan2 (y x : R)
| call_asin (x : R).

(** ** [EQConvert] *)

Section EQConvert.

Variable DsC : DSCONTROL.
Variables RA Dec : R.

Local Open Scope R_scope.

(* POPULATE LOCAL VARIABLES *)
Definition fRA := DsC_RA DsC * RADS.
Definition fDec := DsC_Dec DsC * RADS.
Definition fFOV := DsC_FOV DsC * RADS.
Definition fROT := DsC_ROT DsC * RADS.
(** [RA = RA * RADS; Dec = Dec * RADS;] *)
Definition RA_rad := RA * RADS.
Definition Dec_rad := Dec * RADS.

(* CONVERT RA TO AZIMUTH *)
Definition p1 := sin (fRA - RA_rad).
Definition p2 := cos (fRA - RA_rad) * sin fDec - tan Dec_rad * cos fDec.

(** [if (p1 == 0.0 && p2 == 0.0) Az = 0.0; else Az = atan2(p1, p2);] with
    the call made. *)
Definition Az_call : R * list libm_call :=
  if Req_dec_T p1 0 then
    if Req_dec_T p2 0 then (0, [])
    else (atan2 p1 p2, [call_atan2 p1 p2])
  else (atan2 p1 p2, [call_atan2 p1 p2]).

Definition Az := fst Az_call.

Definition TempVal :=
  sin fDec * sin Dec_rad + cos fDec * cos Dec_rad * cos (fRA - RA_rad).

(* CONVERT DEC TO ALTITUDE *)
(** [if (TempVal >= 1.0) Alt = PI2; else Alt = asin(TempVal);] with the
    call made. *)
Definition Alt_call : R * list libm_call :=
  if Rle_dec 1 TempVal then (PI2, [])
  else (asin TempVal, [call_asin TempVal]).

Definition Alt := fst Alt_call.

(* CONVERT ALT/AZ TO X/Y *)
Definition nz := 1 - 2 * Alt / PI.
Definition az2 := Az - PI2 + fROT.
Definition tX := (nz * cos az2) * PI / fFOV.
Definition tY := - (nz * sin az2) * PI / fFOV.

(* SCALE APPROPRIATELY FOR THE CURRENT DISPLAY *)
Definition xyScale := (IZR (DsC_MaxX DsC) / fFOV) / (120 / DsC_FOV DsC).

(* SAVE RESULTS INTO DsC STRUCTURE *)
(** [void EQConvert(RA, Dec)]: the global [DsC] after the call. *)
Definition EQConvert : DSCONTROL :=
  set_CX_CY DsC
    (int_of_double (IZR (DsC_MaxX DsC) / 2 + tX * xyScale))
    (int_of_double (IZR (DsC_MaxY DsC) / 2 + tY * xyScale)).

End EQConvert.

(** ** The paint loop (WM_PAINT) *)

Inductive bkmode : Type := OPAQUE | TRANSPARENT.

(** The calls on the window and its device context that the star loop and
    the file checks make.  The handle arguments and the colour 0x00FFFFFF of
    [SetPixel] are left out. *)
Inductive gdi_call : Type :=
| MessageBox (text caption : string)
| SetBkMode (mode : bkmode)
| SetPixel (X Y : Z)
| Ellipse (X1 Y1 X2 Y2 : Z)
| TextOut (X Y : Z) (text : list ascii).

(** The calls that draw. *)
Definition draws (c : gdi_call) : bool :=
  match c with
  | SetPixel _ _ | Ellipse _ _ _ _ | TextOut _ _ _ => true
  | MessageBox _ _ | SetBkMode _ => false
  end.

(** Lines 293-305: the size of the star's symbol. *)
Definition sz (Mag_limit Mag_star : R) : R :=
  let sz0 :=
    if Rle_dec Mag_limit 15 then (Mag_limit - Mag_star + 0.50)%R
    else (15 - Mag_star + 0.50)%R in
  let sz1 := if Rlt_dec sz0 1 then 1%R else sz0 in
  if Rlt_dec 8 sz1 then 8%R else sz1.

(** The globals the loop works on, and the calls made so far. *)
Record paint_state : Type := mkPaint {
  p_Star : STARDATA;
  p_DsC : DSCONTROL;
  p_out : list gdi_call
}.

Section Paint.

Variable auto_SL : Z -> buf.
Variable auto_S : Z -> buf.
Variable fp : store.

(** The body of [for (i = 1; i <= DsC.Stars; i++)]. *)
Definition paint_star (i : Z) (st : paint_state) : paint_state :=
  let Star := GetStar auto_SL auto_S fp i (p_Star st) in
  if Rle_dec (Star_Mag Star) (DsC_Mag (p_DsC st)) then
    let DsC := EQConvert (p_DsC st) (Star_RA Star) (Star_Dec Star) in
    let s := sz (DsC_Mag DsC) (Star_Mag Star) in
    let symbol :=
      if Req_dec_T s 1 then SetPixel (DsC_CX DsC) (DsC_CY DsC)
      else Ellipse (DsC_CX DsC - int_of_double s) (DsC_CY DsC - int_of_double s)
                   (DsC_CX DsC + int_of_double s) (DsC_CY DsC + int_of_double s) in
    let label :=
      if Rlt_dec (Star_Mag Star) (DsC_Mag DsC - 3)
      then [SetBkMode TRANSPARENT;
            TextOut (DsC_CX DsC + int_of_double s) (DsC_CY DsC - int_of_double s)
                    (cstr (Star_Label Star))]
      else [] in
    mkPaint Star DsC (p_out st ++ [SetBkMode OPAQUE; symbol] ++ label)
  else mkPaint Star (p_DsC st) (p_out st).

(** [n] rounds of the loop from index [i]. *)
Fixpoint star_loop (n : nat) (i : Z) (st : paint_state) : paint_state :=
  match n with
  | O => st
  | S m => star_loop m (i + 1)%Z (paint_star i st)
  end.

End Paint.

(** WM_PAINT from [GetClientRect] to [fclose]: [file] is what [fopen] finds
    ([None] when STARS.DAT cannot be opened), [right] and [bottom] the client
    rectangle. *)
Definition WM_PAINT (auto_SL auto_S : Z -> buf) (file : option store)
    (right bottom : Z) (DsC : DSCONTROL) (Star : STARDATA) : paint_state :=
  let DsC1 := set_MaxX_MaxY DsC right bottom in
  let out := [SetBkMode OPAQUE] in
  match file with
  | None => mkPaint Star DsC1 (out ++ [MessageBox "Unable to open data file!" "ERROR"])
  | Some fp =>
      match check_integrity (ftell_end fp) with
      | DataFileError => mkPaint Star DsC1 (out ++ [MessageBox "DATA FILE ERROR!" "ERROR"])
      | DataFileOK Stars =>
          let DsC2 := set_Stars DsC1 Stars in
          star_loop auto_SL auto_S fp (Z.to_nat (DsC_Stars DsC2)) 1%Z (mkPaint Star DsC2 out)
      end
  end.

(** The drawing calls of a paint. *)
Definition drawing (st : paint_state) : list gdi_call := filter draws (p_out st).

(** ** [EQConvert] and [NormalizeZeroTwoPI] on binary64 *)

(** On IEEE binary64, the arithmetic of [double]: no operation is carried
    out in a wider format and none is fused with another.  A [while] loop is
    run with a bound [fuel] on the number of times its condition is tested;
    [None] means the bound was reached with the condition still true. *)
Module Binary64.

Local Open Scope float_scope.

Definition PI : float := 3.141592653590.
Definition TWOPI : float := 6.283185307180.
Definition PI2 : float := 1.570796326795.
Definition RADS : float := 0.017453292520.

(** The functions of math.h that [EQConvert] calls.  They belong to the C
    library, not to the program. *)
Record libm : Type := mkLibm {
  sin : float -> float;
  cos : float -> float;
  tan : float -> float;
  asin : float -> float;
  atan2 : float -> float -> float
}.

(** The range of the program's [int], which has 16 bits. *)
Definition INT_MIN : Z := (-32768)%Z.
Definition INT_MAX : Z := 32767%Z.

(** [(double) n] for an [int]. *)
Definition double_of_int (n : Z) : float :=
  if (n <? 0)%Z then - of_uint63 (Uint63.of_Z (- n)) else of_uint63 (Uint63.of_Z n).

(** [(int) x]: the fraction is dropped.  [None] where C leaves the
    conversion undefined: for NaN, the infinities and the values whose
    integer part no [int] holds. *)
Definition int_of_double (x : float) : option Z :=
  match Prim2SF x with
  | S754_zero _ => Some 0%Z
  | S754_finite s m e =>
      let n := match e with
               | Zneg p => Z.shiftr (Zpos m) (Zpos p)
               | _ => Z.shiftl (Zpos m) e
               end in
      let z := if s then (- n)%Z else n in
      if ((INT_MIN <=? z) && (z <=? INT_MAX))%Z then Some z else None
  | _ => None
  end.

(** [DSCONTROL] with its [double] members as [float]. *)
Record DSCONTROL : Type := mkDSCONTROL {
  DsC_RA : float;
  DsC_Dec : float;
  DsC_FOV : float;
  DsC_Mag : float;
  DsC_ROT : float;
  DsC_MinRA : float;
  DsC_MinDec : float;
  DsC_MaxRA : float;
  DsC_MaxDec : float;
  DsC_MaxX : Z;
  DsC_MaxY : Z;
  DsC_CRA : float;
  DsC_CDec : float;
  DsC_CX : Z;
  DsC_CY : Z;
  DsC_Stars : Z
}.

Definition set_CX_CY (d : DSCONTROL) (X Y : Z) : DSCONTROL :=
  mkDSCONTROL (DsC_RA d) (DsC_Dec d) (DsC_FOV d) (DsC_Mag d) (DsC_ROT d)
    (DsC_MinRA d) (DsC_MinDec d) (DsC_MaxRA d) (DsC_MaxDec d)
    (DsC_MaxX d) (DsC_MaxY d) (DsC_CRA d) (DsC_CDec d) X Y (DsC_Stars d).

(** The calls of [atan2] and [asin], as [EQConvert] makes them. *)
Inductive libm_call : Type :=
| call_atan2 (y x : float)
| call_asin (x : float).

(** [asin] outside [-1, 1]; [atan2] at the origin. *)
Definition domain_error (c : libm_call) : bool :=
  match c with
  | call_atan2 y x => (y =? 0) && (x =? 0)
  | call_asin x => (x <? -1) || (1 <? x)
  end.

Section EQConvert.

Variable m : libm.
Variable DsC : DSCONTROL.
Variables RA Dec : float.

(* POPULATE LOCAL VARIABLES *)
Definition fRA := DsC_RA DsC * RADS.
Definition fDec := DsC_Dec DsC * RADS.
Definition fFOV := DsC_FOV DsC * RADS.
Definition fROT := DsC_ROT DsC * RADS.
(** [RA = RA * RADS; Dec = Dec * RADS;] *)
Definition RA_rad := RA * RADS.
Definition Dec_rad := Dec * RADS.

(* CONVERT RA TO AZIMUTH *)
Definition p1 := sin m (fRA - RA_rad).
Definition p2 := cos m (fRA - RA_rad) * sin m fDec - tan m Dec_rad * cos m fDec.

(** [if (p1 == 0.0 && p2 == 0.0) Az = 0.0; else Az = atan2(p1, p2);] with
    the call made. *)
Definition Az_call : float * list libm_call :=
  if (p1 =? 0) && (p2 =? 0) then (0, [])
  else (atan2 m p1 p2, [call_atan2 p1 p2]).

Definition Az := fst Az_call.

Definition TempVal :=
  sin m fDec * sin m Dec_rad + cos m fDec * cos m Dec_rad * cos m (fRA - RA_rad).

(* CONVERT DEC TO ALTITUDE *)
(** [if (TempVal >= 1.0) Alt = PI2; else Alt = asin(TempVal);] with the
    call made. *)
Definition Alt_call : float * list libm_call :=
  if 1 <=? TempVal then (PI2, [])
  else (asin m TempVal, [call_asin TempVal]).

Definition Alt := fst Alt_call.

(* CONVERT ALT/AZ TO X/Y *)
Definition nz := 1 - 2 * Alt / PI.
Definition az2 := Az - PI2 + fROT.
Definition tX := (nz * cos m az2) * PI / fFOV.
Definition tY := - (nz * sin m az2) * PI / fFOV.

(* SCALE APPROPRIATELY FOR THE CURRENT DISPLAY *)
Definition xyScale := (double_of_int (DsC_MaxX DsC) / fFOV) / (120 / DsC_FOV DsC).

(** The calls of [atan2] and [asin] made by one run, in order. *)
Definition EQConvert_calls : list libm_call := snd Az_call ++ snd Alt_call.

(** The values converted to [int] in the last two statements. *)
Definition X := double_of_int (DsC_MaxX DsC) / 2 + tX * xyScale.
Definition Y := double_of_int (DsC_MaxY DsC) / 2 + tY * xyScale.

(* SAVE RESULTS INTO DsC STRUCTURE *)
(** [void EQConvert(RA, Dec)]: the global [DsC] after the call; [None] when
    a conversion to [int] is undefined. *)
Definition EQConvert : option DSCONTROL :=
  match int_of_double X, int_of_double Y with
  | Some CX, Some CY => Some (set_CX_CY DsC CX CY)
  | _, _ => None
  end.

End EQConvert.

(** [while (tmpVal >= TWOPI) tmpVal = tmpVal - TWOPI;] *)
Fixpoint while_ge (fuel : nat) (tmpVal : float) : option float :=
  match fuel with
  | O => None
  | S f => if TWOPI <=? tmpVal then while_ge f (tmpVal - TWOPI) else Some tmpVal
  end.

(** [while (tmpVal < 0.0) tmpVal = tmpVal + TWOPI;] *)
Fixpoint while_lt (fuel : nat) (tmpVal : float) : option float :=
  match fuel with
  | O => None
  | S f => if tmpVal <? 0 then while_lt f (tmpVal + TWOPI) else Some tmpVal
  end.

Definition NormalizeZeroTwoPI (fuel : nat) (value : float) : option float :=
  match while_ge fuel value with
  | Some tmpVal => while_lt fuel tmpVal
  | None => None
  end.

End Binary64.

(** * Vocabulary of the properties *)

(** A character other than the string terminator. *)
Definition nonnul (c : ascii) : bool := negb (Ascii.eqb c NUL).

(** A character that ends neither a string, a line nor the file. *)
Definition plain (c : ascii) : bool :=
  negb (Ascii.eqb c NUL || Ascii.eqb c LF || Ascii.eqb c CR || Ascii.eqb c CTRLZ).

(** The bytes [from .. from + width - 1] of a line. *)
Definition field (line : list ascii) (from width : nat) : list ascii :=
  firstn width (skipn from line).

(** The number a text denotes to [atof]. *)
Definition number (text : list ascii) : R := dec_value (atof_dec text).

(** The bytes of the file from the record of star [index] on. *)
Definition from_record (fp : store) (index : Z) : list ascii :=
  skipn (Z.to_nat ((index + 4) * streclen)) fp.

(** A text without its trailing spaces: [rev] brings them to the front,
    where [drop_spaces] removes them. *)
Fixpoint drop_spaces (s : list ascii) : list ascii :=
  match s with
  | c :: t => if Ascii.eqb c SPACE then drop_spaces t else s
  | [] => []
  end.

Definition trim_tail (s : list ascii) : list ascii := rev (drop_spaces (rev s)).



(** The bytes [sprintf(Star.Class, "%s", S)] stores at [Star.Class]: the
    string and its terminator. *)
Definition Class_stored (Star : STARDATA) : list ascii := Star_Class Star ++ [NUL].

(** [char Class[2]] *)
Definition sizeof_Class : nat := 2.

(** The texts of the calls of [TextOut] in a list of calls. *)
Definition texts_within (n : nat) (out : list gdi_call) : Prop :=
  forall (X Y : Z) (text : list ascii), In (TextOut X Y text) out -> (length text <= n)%nat.

(** The members of [DsC] that [EQConvert] and the loop read. *)
Definition same_view (d1 d2 : DSCONTROL) : Prop :=
  DsC_RA d1 = DsC_RA d2 /\ DsC_Dec d1 = DsC_Dec d2 /\ DsC_FOV d1 = DsC_FOV d2 /\
  DsC_Mag d1 = DsC_Mag d2 /\ DsC_ROT d1 = DsC_ROT d2 /\
  DsC_MaxX d1 = DsC_MaxX d2 /\ DsC_MaxY d1 = DsC_MaxY d2.





(** The calls of one round of the loop for a star of symbol size 5 that
    gets its label, after [EQConvert] has left the position in [d]. *)
Definition calls_size_5 (d : DSCONTROL) (label : list ascii) : list gdi_call :=
  [SetBkMode OPAQUE;
   Ellipse (DsC_CX d - 5) (DsC_CY d - 5) (DsC_CX d + 5) (DsC_CY d + 5);
   SetBkMode TRANSPARENT;
   TextOut (DsC_CX d + 5) (DsC_CY d - 5) label].

(** ** Sample data *)

(** The global [DsC] at program start: static storage is zeroed. *)
Definition DsC_initial : DSCONTROL :=
  mkDSCONTROL 0 0 0 0 0 0 0 0 0 0 0 0 0 0 0 0.


(** Five reserved records. *)
Definition header : list ascii := repeat "#"%char (5 * 61).

(** A record of 61 bytes: label, RA, Dec, magnitude, class, proper motion
    in RA, and the 5 bytes that are left for the proper motion in Dec. *)
Definition Polaris_record : list ascii :=
  chars "Polaris          " ++ chars "  37.954561" ++ chars "  +89.264109" ++
  chars " 2.00" ++ chars "F7" ++ chars "   44.220" ++ chars "-11.7".

Definition faint_record : list ascii :=
  chars "Faint companion X" ++ chars "  37.960000" ++ chars "  +89.260000" ++
  chars " 9.00" ++ chars "G2" ++ chars "    0.000" ++ chars "  0.0".

(** A record that text mode reads as the end of the file. *)
Definition eof_record : list ascii := CTRLZ :: repeat SPACE 60.

(** Two stars behind the header: magnitudes 2.0 and 9.0. *)
Definition catalog : store := header ++ Polaris_record ++ faint_record.

(** The same with the second record unreadable. *)
Definition catalog_eof : store := header ++ Polaris_record ++ eof_record.

(** A record whose line ends after one character: X, a newline, and spaces
    up to 61 bytes. *)
Definition short_record : list ascii := chars "X" ++ LF :: repeat SPACE 59.

(** The catalogue with that record in second place. *)
Definition catalog_short : store := header ++ Polaris_record ++ short_record.

(** A record of 59 bytes and a line break of CR LF. *)
Definition Vega_record : list ascii :=
  chars "Vega             " ++ chars " 279.234735" ++ chars "  +38.783689" ++
  chars " 0.03" ++ chars "A0" ++ chars "  200.940" ++ chars "286" ++ [CR; LF].


(** Stack contents for the automatic arrays. *)
Definition stack_junk : Z -> buf := fun _ => repeat "?"%char 80.

(** The star of [Polaris_record], as [GetStar] stores it over a label array
    that held [Label_before]. *)
Definition Polaris (Label_before : buf) : STARDATA :=
  mkSTARDATA (chars "Polaris         " ++ NUL :: skipn 17 Label_before)
    (number (chars "  37.954561")) (number (chars "  +89.264109"))
    (number (chars " 2.00")) (chars "F7") (number (chars "   44.220"))
    (number (chars "-11.")).

(** A function given by the table of its values; NaN elsewhere. *)
Definition lookup (table : list (float * float)) (x : float) : float :=
  match find (fun p => PrimFloat.eqb (fst p) x) table with
  | Some p => snd p
  | None => nan
  end.

Definition lookup2 (table : list (float * float * float)) (y x : float) : float :=
  match find (fun p => PrimFloat.eqb (fst (fst p)) y && PrimFloat.eqb (snd (fst p)) x)
             table with
  | Some p => snd p
  | None => nan
  end.

(** The C library at the arguments of the three runs of [EQConvert] used
    below: the centre of the view at Dec 82, the centre of the view at
    Dec -78, and the star at RA 180, Dec 78 in the view at Dec -78.  Each
    value is the [double] nearest the exact value of the function, which is
    what an IEEE binary64 library (glibc 2.36) returns there; [asin] answers
    an argument below -1 with NaN. *)
Definition sample_libm : Binary64.libm :=
  Binary64.mkLibm
    (* sin *)
    (lookup [(0, 0);
             (0x1.6e6127ffa2b3ep+0, 0x1.fb046a930ab3ep-1);
             (0x1.5c81e15d4fd6dp+0, 0x1.f4cfc327a20dbp-1);
             (-0x1.5c81e15d4fd6dp+0, -0x1.f4cfc327a20dbp-1);
             (-0x1.921fb544486ep+1, 0x1.671ee59d9ccecp-37);
             (0x1.921fb54442b46p+0, 1);
             (-0x1.6cfaf9418p-17, -0x1.6cfaf9416116bp-17)]%float)
    (* cos *)
    (lookup [(0, 1);
             (0x1.6e6127ffa2b3ep+0, 0x1.1d06c968b1611p-3);
             (0x1.5c81e15d4fd6dp+0, 0x1.a9cd9ac3ff815p-3);
             (-0x1.5c81e15d4fd6dp+0, 0x1.a9cd9ac3ff815p-3);
             (-0x1.921fb544486ep+1, -1);
             (0x1.921fb54442b46p+0, 0x1.d2469898cc517p-44);
             (-0x1.6cfaf9418p-17, 0x1.ffffffff7de95p-1)]%float)
    (* tan *)
    (lookup [(0x1.6e6127ffa2b3ep+0, 0x1.c76237b067ab6p+2);
             (0x1.5c81e15d4fd6dp+0, 0x1.2d18a8e31b48dp+2);
             (-0x1.5c81e15d4fd6dp+0, -0x1.2d18a8e31b48dp+2)]%float)
    (* asin *)
    (lookup [(0x1.fffffffffffffp-1, 0x1.921fb50442d18p+0);
             (-0x1.0000000000001p+0, nan)]%float)
    (* atan2 *)
    (lookup2 [(0, -0x1p-53, 0x1.921fb54442d18p+1);
              (0x1.671ee59d9ccecp-37, 0x1p-53, 0x1.921efec6c64dep+0)]%float).

(** A view centred on RA 0 with no rotation, on a client area of 640 by
    480 pixels. *)
Definition sample_view (Dec FOV : float) : Binary64.DSCONTROL :=
  Binary64.mkDSCONTROL 0 Dec FOV 6.5 0 0 0 0 0 640 480 0 0 0 0 0.

(** Rewrites [number text], for a closed [text], as an integer or a quotient
    of integers. *)
Ltac number_eval text :=
  unfold number;
  let d := eval vm_compute in (atof_dec text) in
  replace (atof_dec text) with d by (vm_compute; reflexivity);
  lazymatch d with
  | (?m, Z.neg ?k) =>
      let p := eval vm_compute in (Z.pow_pos 10 k) in
      change (dec_value (m, Z.neg k)) with (IZR m / IZR p)%R
  | (?m, ?e) =>
      let q := eval vm_compute in (m * 10 ^ e)%Z in
      change (dec_value (m, e)) with (IZR q)
  end.

(** * Properties *)

(** ** Strings and arrays *)

Lemma plain_spec c :
  plain c = true ->
  Ascii.eqb c NUL = false /\ Ascii.eqb c LF = false /\
  Ascii.eqb c CR = false /\ Ascii.eqb c CTRLZ = false.
Proof.
  unfold plain. rewrite negb_true_iff, !orb_false_iff. tauto.
Qed.

Lemma plain_nonnul l : forallb plain l = true -> forallb nonnul l = true.
Proof.
  induction l as [|c l IH]; [reflexivity|]. cbn [forallb].
  rewrite !andb_true_iff. intros [Hc Hl]. split; [|now apply IH].
  unfold nonnul. now destruct (plain_spec c Hc) as (-> & _).
Qed.

Lemma forallb_firstn {A} (f : A -> bool) : forall n l,
  forallb f l = true -> forallb f (firstn n l) = true.
Proof.
  induction n; intros [|x l] H; try reflexivity.
  simpl in *. apply andb_true_iff in H as [-> H]. now apply IHn.
Qed.

Lemma forallb_skipn {A} (f : A -> bool) : forall n l,
  forallb f l = true -> forallb f (skipn n l) = true.
Proof.
  induction n; intros [|x l] H; try reflexivity; try assumption.
  simpl in *. apply andb_true_iff in H as [_ H]. now apply IHn.
Qed.

Lemma forallb_field (f : ascii -> bool) l from width :
  forallb f l = true -> forallb f (field l from width) = true.
Proof. intro H. unfold field. now apply forallb_firstn, forallb_skipn. Qed.

Lemma length_field l from width :
  (from + width <= length l)%nat -> length (field l from width) = width.
Proof. intro H. unfold field. rewrite length_firstn, length_skipn. lia. Qed.

(** A line from [from] on starts with the field at [from]. *)
Lemma skipn_line_field l tail from width :
  (from + width <= length l)%nat ->
  skipn from (l ++ tail) = field l from width ++ (skipn (from + width) l ++ tail).
Proof.
  intro H. unfold field.
  rewrite skipn_app. replace (from - length l)%nat with 0%nat by lia.
  cbn [skipn]. rewrite app_assoc. f_equal.
  rewrite <- (firstn_skipn width (skipn from l)) at 1. f_equal.
  now rewrite skipn_skipn, Nat.add_comm.
Qed.

Lemma cstr_app_nonnul : forall a b,
  forallb nonnul a = true -> cstr (a ++ b) = a ++ cstr b.
Proof.
  induction a as [|c a IH]; intros b H; [reflexivity|].
  cbn [forallb] in H. apply andb_true_iff in H as [Hc Ha].
  unfold nonnul in Hc. apply negb_true_iff in Hc.
  cbn [app cstr]. rewrite Hc. now rewrite IH.
Qed.

Lemma cstr_nonnul : forall a, forallb nonnul a = true -> cstr a = a.
Proof.
  intros a H. rewrite <- (app_nil_r a) at 1.
  rewrite cstr_app_nonnul by assumption. apply app_nil_r.
Qed.

Lemma cstr_terminated a b : forallb nonnul a = true -> cstr (a ++ NUL :: b) = a.
Proof.
  intro H. rewrite cstr_app_nonnul by exact H.
  cbn [cstr]. now rewrite Ascii.eqb_refl, app_nil_r.
Qed.

Lemma nonnul_cstr : forall x, forallb nonnul (cstr x) = true.
Proof.
  induction x as [|c x IH]; [reflexivity|]. cbn [cstr].
  destruct (Ascii.eqb c NUL) eqn:E; [reflexivity|].
  cbn [forallb]. unfold nonnul at 1. now rewrite E, IH.
Qed.

Lemma length_cstr : forall x, (length (cstr x) <= length x)%nat.
Proof.
  induction x as [|c x IH]; [reflexivity|]. cbn [cstr].
  destruct (Ascii.eqb c NUL); cbn [length]; lia.
Qed.

(** A terminated array holds its string, a NUL, and something more. *)
Lemma cstr_split : forall x t, exists t', x ++ NUL :: t = cstr x ++ NUL :: t'.
Proof.
  induction x as [|c x IH]; intros t; [now exists t|]. cbn [cstr app].
  destruct (Ascii.eqb c NUL) eqn:E.
  - apply Ascii.eqb_eq in E as ->. now exists (x ++ NUL :: t).
  - destruct (IH t) as [t' ->]. now exists t'.
Qed.

Lemma strncpy_chars_short : forall a n b,
  forallb nonnul a = true -> (length a <= n)%nat ->
  strncpy_chars n (a ++ NUL :: b) = a ++ repeat NUL (n - length a).
Proof.
  induction a as [|c a IH]; intros n b H Hn.
  - destruct n; reflexivity.
  - cbn [forallb] in H. apply andb_true_iff in H as [Hc Ha].
    unfold nonnul in Hc. apply negb_true_iff in Hc.
    destruct n; [simpl in Hn; lia|].
    cbn [app length strncpy_chars]. rewrite Hc.
    rewrite IH by (auto; simpl in Hn; lia). reflexivity.
Qed.

Lemma strncpy_chars_prefix : forall a n b,
  forallb nonnul a = true -> (length a <= n)%nat ->
  strncpy_chars n (a ++ b) = a ++ strncpy_chars (n - length a) b.
Proof.
  induction a as [|c a IH]; intros n b H Hn.
  - cbn. now rewrite Nat.sub_0_r.
  - cbn [forallb] in H. apply andb_true_iff in H as [Hc Ha].
    unfold nonnul in Hc. apply negb_true_iff in Hc.
    destruct n; [simpl in Hn; lia|].
    cbn [app length strncpy_chars]. rewrite Hc.
    rewrite IH by (auto; simpl in Hn; lia). reflexivity.
Qed.

Lemma poke_app_ge : forall a b m c,
  (length a <= m)%nat -> poke (a ++ b) m c = a ++ poke b (m - length a) c.
Proof.
  induction a as [|x a IH]; intros b m c Hm.
  - cbn. now rewrite Nat.sub_0_r.
  - destruct m; [simpl in Hm; lia|]. cbn. rewrite IH by (simpl in Hm; lia). reflexivity.
Qed.

Lemma cstr_poke_0 : forall b, cstr (poke b 0 NUL) = [].
Proof. destruct b; reflexivity. Qed.

(** The C string left in [S] by [strncpy(S, src, n); S[m] = 0;] when the
    first [m] characters at [src] are not NUL. *)
Lemma cstr_field_at : forall S a b n m,
  forallb nonnul a = true -> length a = m -> (m <= n)%nat ->
  cstr (poke (strncpy S (a ++ b) n) m NUL) = a.
Proof.
  intros S a b n m H <- Hn. unfold strncpy.
  rewrite strncpy_chars_prefix by assumption.
  rewrite <- app_assoc, poke_app_ge by lia.
  rewrite Nat.sub_diag, cstr_app_nonnul by assumption.
  now rewrite cstr_poke_0, app_nil_r.
Qed.

(** The same when the string at [src] ends before [n] characters. *)
Lemma cstr_field_short : forall S a b n m,
  forallb nonnul a = true -> (length a < n)%nat -> (length a <= m)%nat ->
  cstr (poke (strncpy S (a ++ NUL :: b) n) m NUL) = a.
Proof.
  intros S a b n m H Hn Hm. unfold strncpy.
  rewrite strncpy_chars_short by (auto; lia).
  rewrite <- app_assoc, poke_app_ge by assumption.
  rewrite cstr_app_nonnul by assumption.
  destruct (n - length a)%nat as [|k] eqn:E; [lia|].
  cbn [repeat app]. destruct (m - length a)%nat; cbn; now rewrite app_nil_r.
Qed.

Lemma length_strncpy_chars : forall n src, length (strncpy_chars n src) = n.
Proof.
  induction n as [|n IH]; intros [|c t]; cbn [strncpy_chars]; try reflexivity.
  - apply repeat_length.
  - destruct (Ascii.eqb c NUL); [apply repeat_length|]. cbn [length]. now rewrite IH.
Qed.

Lemma cstr_app_NUL : forall a b, cstr (a ++ NUL :: b) = cstr a.
Proof.
  induction a as [|c a IH]; intro b; [reflexivity|].
  cbn [app cstr]. destruct (Ascii.eqb c NUL); [reflexivity|]. now rewrite IH.
Qed.

(** The first [m] characters [strncpy] writes, followed by a NUL or by the
    end of the array, hold the string of the first [m] characters of the
    source. *)
Lemma cstr_strncpy_chars : forall m n src r,
  (m <= n)%nat -> (r = [] \/ exists r', r = NUL :: r') ->
  cstr (firstn m (strncpy_chars n src) ++ r) = cstr (firstn m src).
Proof.
  induction m as [|m IH]; intros n src r Hn Hr.
  - cbn [firstn app]. destruct Hr as [->|[r' ->]]; reflexivity.
  - destruct n as [|n]; [lia|]. destruct src as [|c t].
    + cbn [strncpy_chars repeat firstn app cstr]. now rewrite Ascii.eqb_refl.
    + cbn [strncpy_chars firstn]. destruct (Ascii.eqb c NUL) eqn:E.
      * cbn [repeat firstn app cstr]. rewrite Ascii.eqb_refl, E. reflexivity.
      * cbn [firstn app cstr]. rewrite E. f_equal. apply IH; [lia|exact Hr].
Qed.

(** The C string left in [S] by [strncpy(S, src, n); S[m] = 0;] with
    [m <= n]: the string of the first [m] characters at [src]. *)
Lemma cstr_poke_strncpy S src n m :
  (m <= n)%nat ->
  cstr (poke (strncpy S src n) m NUL) = cstr (firstn m src).
Proof.
  intro H. unfold strncpy.
  set (A := strncpy_chars n src).
  assert (LA : length A = n) by apply length_strncpy_chars.
  rewrite <- (firstn_skipn m A), <- app_assoc.
  assert (Lm : length (firstn m A) = m) by (rewrite length_firstn; lia).
  rewrite poke_app_ge by lia. rewrite Lm, Nat.sub_diag.
  apply cstr_strncpy_chars; [exact H|].
  destruct (skipn m A ++ skipn n S) as [|x r]; [now left|right; now exists r].
Qed.

(** Behind a line of fewer than [from] characters, the array holds what it
    held before [fgets] stored the line. *)
Lemma field_behind_line (line A : list ascii) from width :
  (length line < from)%nat ->
  field (line ++ NUL :: skipn (S (length line)) A) from width = field A from width.
Proof.
  intro H. unfold field. f_equal.
  rewrite skipn_app, skipn_all2 by lia. cbn [app].
  replace (from - length line)%nat with (S (from - S (length line))) by lia.
  rewrite skipn_cons, skipn_skipn. f_equal. lia.
Qed.

Lemma cstr_firstn_line (line tail : list ascii) n :
  (length line <= n)%nat ->
  cstr (firstn n (line ++ NUL :: tail)) = cstr line.
Proof.
  intro H. rewrite firstn_app, firstn_all2 by lia.
  destruct (n - length line)%nat as [|k]; cbn [firstn].
  - now rewrite app_nil_r.
  - apply cstr_app_NUL.
Qed.

(** ** The stream *)

Lemma text_read_plain : forall a rest,
  forallb plain a = true -> text_read (a ++ rest) = a ++ text_read rest.
Proof.
  induction a as [|c a IH]; intros rest H; [reflexivity|].
  cbn [forallb] in H. apply andb_true_iff in H as [Hc Ha].
  destruct (plain_spec c Hc) as (_ & _ & Hcr & Hz).
  specialize (IH rest Ha).
  cbn [app text_read]. rewrite Hz, Hcr. cbn [andb].
  destruct (a ++ rest) eqn:E; [|now rewrite IH].
  rewrite <- IH. reflexivity.
Qed.

Lemma fgets_chars_plain : forall a k y,
  forallb plain a = true ->
  fgets_chars (length a + k) (a ++ y) = a ++ fgets_chars k y.
Proof.
  induction a as [|c a IH]; intros k y H; [reflexivity|].
  cbn [forallb] in H. apply andb_true_iff in H as [Hc Ha].
  destruct (plain_spec c Hc) as (_ & Hlf & _).
  cbn [app length Nat.add fgets_chars]. rewrite Hlf. now rewrite IH.
Qed.

Lemma length_fgets_chars : forall k y, (length (fgets_chars k y) <= k)%nat.
Proof.
  induction k as [|k IH]; intros [|c y]; cbn [fgets_chars length]; try lia.
  destruct (Ascii.eqb c LF); cbn [length]; [lia|]. specialize (IH y). lia.
Qed.

Lemma wrap_long_small z : (- 2 ^ 31 <= z < 2 ^ 31)%Z -> wrap_long z = z.
Proof. intro H. unfold wrap_long. rewrite Z.mod_small; lia. Qed.

(** ** [GetStar] *)

Section GetStar_facts.

Variables auto_SL auto_S : Z -> buf.

(** What [GetStar] stores when the first 56 bytes of the record are plain:
    six members come from fixed ranges of these bytes, and PMDEC from what
    [fgets] still reads behind them, at most 4 characters. *)
Lemma GetStar_body_line fp index Star a rest :
  (0 <= (index + 4) * streclen < 2 ^ 31)%Z ->
  from_record fp index = a ++ rest ->
  length a = 56%nat ->
  forallb plain a = true ->
  GetStar_body auto_SL auto_S fp index Star =
    (0%Z,
     mkSTARDATA (field a 0 16 ++ NUL :: skipn 17 (Star_Label Star))
       (number (field a 17 11)) (number (field a 28 12))
       (number (field a 40 5)) (field a 45 2) (number (field a 47 9))
       (number (cstr (fgets_chars 4 (text_read rest))))).
Proof.
  intros Hidx Hrec Hlen Hplain.
  pose proof (plain_nonnul a Hplain) as Hnn.
  unfold GetStar_body.
  rewrite wrap_long_small by lia.
  unfold fseek_set. destruct ((index + 4) * streclen <? 0)%Z eqn:E; [lia|].
  fold (from_record fp index). rewrite Hrec.
  unfold fgets. change (Z.to_nat (streclen - 1)) with (56 + 4)%nat.
  rewrite <- Hlen at 1.
  rewrite text_read_plain, fgets_chars_plain by assumption.
  set (x := fgets_chars 4 (text_read rest)).
  destruct (a ++ x) as [|c0 l0] eqn:El.
  { apply app_eq_nil in El as [-> _]. discriminate. }
  rewrite <- El. clear El c0 l0.
  set (tail := skipn (S (length (a ++ x))) (auto_SL index)).
  rewrite <- app_assoc. cbv zeta. f_equal. unfold atof.
  assert (L : forall from width, (from + width <= 56)%nat ->
            skipn from (a ++ x ++ NUL :: tail) =
            field a from width ++ (skipn (from + width) a ++ x ++ NUL :: tail)).
  { intros. apply skipn_line_field. lia. }
  assert (F : forall S from width n,
            (from + width <= 56)%nat -> (width <= n)%nat ->
            cstr (poke (strncpy S (skipn from (a ++ x ++ NUL :: tail)) n) width NUL) =
            field a from width).
  { intros S from width n H1 H2. rewrite (L from width H1).
    apply cstr_field_at; [now apply forallb_field|apply length_field; lia|lia]. }
  unfold number. rewrite !F by lia.
  f_equal.
  - unfold strncpy.
    rewrite <- (skipn_O (a ++ x ++ NUL :: tail)), (L 0%nat 17%nat) by lia.
    rewrite strncpy_chars_prefix
      by (try apply forallb_field; try rewrite length_field; auto; lia).
    rewrite length_field, Nat.sub_diag by lia. cbn [strncpy_chars].
    rewrite app_nil_r.
    assert (E17 : field a 0 17 = field a 0 16 ++ field a 16 1).
    { unfold field. cbn [skipn].
      rewrite <- (firstn_skipn 16 (firstn 17 a)), firstn_firstn.
      cbn [Nat.min]. f_equal.
      now rewrite skipn_firstn_comm. }
    rewrite E17, <- app_assoc.
    assert (E16 : length (field a 0 16) = 16%nat) by (apply length_field; lia).
    rewrite poke_app_ge by lia. rewrite E16. cbn [Nat.sub].
    assert (E1 : length (field a 16 1) = 1%nat) by (apply length_field; lia).
    destruct (field a 16 1) as [|y [|z r]]; try discriminate. reflexivity.
  - f_equal. f_equal.
    replace (skipn 56 (a ++ x ++ NUL :: tail)) with (x ++ NUL :: tail).
    2:{ rewrite <- Hlen, skipn_app, Nat.sub_diag, skipn_all. reflexivity. }
    destruct (cstr_split x tail) as [t' ->].
    pose proof (length_cstr x). pose proof (length_fgets_chars 4 (text_read rest)).
    fold x in H0.
    apply cstr_field_short; [apply nonnul_cstr|lia|lia].
Qed.

(** [GetStar] on any line that is read, whatever its length: each member
    is the string, or the number at the head of the string, of a fixed range
    of the array [SL]. *)
Lemma GetStar_body_any_line fp index Star rest SL :
  fseek_set fp (wrap_long ((index + 4) * streclen)) = Some rest ->
  fgets (auto_SL index) streclen rest = Some SL ->
  exists Label : buf,
    cstr Label = cstr (field SL 0 16) /\
    GetStar_body auto_SL auto_S fp index Star =
      (0%Z,
       mkSTARDATA Label
         (number (cstr (field SL 17 11))) (number (cstr (field SL 28 12)))
         (number (cstr (field SL 40 5))) (cstr (field SL 45 2))
         (number (cstr (field SL 47 9))) (number (cstr (field SL 56 9)))).
Proof.
  intros Hs Hg. unfold GetStar_body. rewrite Hs, Hg.
  eexists. split;
    [|unfold atof, number, field; rewrite !cstr_poke_strncpy by lia; reflexivity].
  rewrite cstr_poke_strncpy by lia. reflexivity.
Qed.

(** A read that fails leaves [Star] as it was. *)
Lemma GetStar_error_keeps fp index Star :
  fst (GetStar_body auto_SL auto_S fp index Star) = 1%Z ->
  GetStar auto_SL auto_S fp index Star = Star.
Proof.
  unfold GetStar, GetStar_body.
  destruct (fseek_set fp _); [|reflexivity].
  destruct (fgets _ _ _); [|reflexivity].
  cbn. discriminate.
Qed.

End GetStar_facts.

Lemma GetStar_error_keeps_witness :
  GetStar stack_junk stack_junk catalog_eof 2 Star_initial = Star_initial.
Proof.
  apply (GetStar_error_keeps stack_junk stack_junk catalog_eof 2 Star_initial).
  reflexivity.
Defined.

(** ** C1: the integrity check *)

Lemma check_integrity_spec floc :
  (0 <= floc)%Z ->
  (check_integrity floc = DataFileError <-> (floc mod 61 <> 0)%Z) /\
  ((floc mod 61 = 0)%Z -> check_integrity floc = DataFileOK (floc / 61 - 5)).
Proof.
  intro H. unfold check_integrity, streclen.
  rewrite Z.rem_mod_nonneg, Z.quot_div_nonneg by lia.
  destruct (Z.eqb_spec (floc mod 61) 0) as [E|E]; split.
  - split; [discriminate|tauto].
  - reflexivity.
  - tauto.
  - tauto.
Qed.

(** C1.  [validate] reports a data file error exactly when the length of the
    store is not a multiple of 61, and otherwise gives [length / 61 - 5] as
    the number of stars; a store of 61 * 7 bytes has 2 stars and one of
    61 * 7 + 1 bytes is refused. *)
Theorem validate_multiple_of_record_length :
  forall fp : store,
    let len := Z.of_nat (length fp) in
    (validate fp = DataFileError <-> (len mod 61 <> 0)%Z) /\
    ((len mod 61 = 0)%Z -> validate fp = DataFileOK (len / 61 - 5)) /\
    (length fp = (61 * 7)%nat -> validate fp = DataFileOK 2) /\
    (length fp = (61 * 7 + 1)%nat -> validate fp = DataFileError).
Proof.
  intros fp len. unfold validate, ftell_end. fold len.
  destruct (check_integrity_spec len) as [H1 H2]; [subst len; lia|].
  repeat split; try tauto.
  - intro E. subst len. rewrite E. reflexivity.
  - intro E. subst len. rewrite E. reflexivity.
Qed.

(** The records of a checked store: each index of [1 .. Stars] has its 61
    bytes in the file. *)
Lemma validate_record fp Stars index :
  validate fp = DataFileOK Stars ->
  (1 <= index <= Stars)%Z ->
  (0 <= (index + 4) * streclen)%Z /\
  ((index + 4) * streclen + 61 <= Z.of_nat (length fp))%Z /\
  (61 <= length (from_record fp index))%nat.
Proof.
  intros Hv Hi. unfold validate, ftell_end, check_integrity in Hv.
  set (len := Z.of_nat (length fp)) in *.
  assert (0 <= len)%Z by (subst len; lia).
  rewrite Z.rem_mod_nonneg, Z.quot_div_nonneg in Hv by (unfold streclen; lia).
  unfold streclen in *.
  destruct (Z.eqb_spec (len mod 61) 0) as [E|E]; [|discriminate].
  injection Hv as <-.
  pose proof (Z.div_mod len 61 ltac:(lia)) as D. rewrite E in D.
  assert (B : ((index + 4) * 61 + 61 <= len)%Z) by lia.
  repeat split; try lia.
  unfold from_record, streclen. rewrite length_skipn. lia.
Qed.

(** ** C2: the field layout *)

Lemma field_firstn l n from width :
  (from + width <= n)%nat -> field (firstn n l) from width = field l from width.
Proof.
  intro H. unfold field. rewrite skipn_firstn_comm, firstn_firstn.
  f_equal. lia.
Qed.

(** [fgets] on a record whose first 56 bytes are plain: a line of at most 60
    characters is stored. *)
Lemma fgets_record (SL : buf) (record : list ascii) :
  (56 <= length record)%nat ->
  forallb plain (firstn 56 record) = true ->
  exists line : list ascii,
    (length line <= 60)%nat /\
    fgets SL streclen record = Some (line ++ NUL :: skipn (S (length line)) SL).
Proof.
  intros L Hplain. unfold fgets.
  pose proof (length_fgets_chars (Z.to_nat (streclen - 1)) (text_read record)) as B.
  change (Z.to_nat (streclen - 1)) with 60%nat in *.
  destruct (fgets_chars 60 (text_read record)) as [|c l] eqn:E.
  - exfalso. rewrite <- (firstn_skipn 56 record) in E.
    assert (H56 : length (firstn 56 record) = 56%nat) by (rewrite length_firstn; lia).
    change 60%nat with (56 + 4)%nat in E. rewrite <- H56 in E at 1.
    rewrite text_read_plain, fgets_chars_plain in E by assumption.
    apply app_eq_nil in E as [E _]. rewrite E in H56. discriminate.
  - exists (c :: l). split; [exact B|reflexivity].
Qed.

Section Layout.

Variables auto_SL auto_S : Z -> buf.

(** C2 is not what the code does, where the code misses the layout its
    own comments give.  For every index of [1 .. Stars] of a checked store
    that a [long] can address, [GetStar] seeks to byte [(index + 4) * 61],
    where the 61 bytes of the record lie in the file, and every line that
    [fgets(SL, streclen, fp_stars)] stores has at most 60 characters: not the
    whole record.  When the first 56 bytes of the record are plain, the read
    succeeds and six members come from the ranges its comments name: the
    label from bytes 0-15 (16 characters, byte 16 of the array is the
    terminator), RA from 17-27, Dec from 28-39, the magnitude from 40-44,
    the class from 45-46, the proper motion in RA from 47-55.  The proper
    motion in Dec, for which the code copies 9 characters from byte 56 on
    (PMDEC = CHAR 57 TO 65), is read from at most 4 characters: the bytes
    56-59 when these are plain. *)
Theorem GetStar_field_layout :
  forall (fp : store) (Stars index : Z) (Star : STARDATA),
    validate fp = DataFileOK Stars ->
    (Z.of_nat (length fp) < 2 ^ 31)%Z ->
    (1 <= index <= Stars)%Z ->
    let record := skipn (Z.to_nat ((index + 4) * 61)) fp in
    let Star' := GetStar auto_SL auto_S fp index Star in
    fseek_set fp (wrap_long ((index + 4) * streclen)) = Some record /\
    (61 <= length record)%nat /\
    (forall SL : buf,
       fgets (auto_SL index) streclen record = Some SL -> (strlen SL <= 60)%nat) /\
    (forallb plain (firstn 56 record) = true ->
     fst (GetStar_body auto_SL auto_S fp index Star) = 0%Z /\
     cstr (Star_Label Star') = field record 0 16 /\
     Star_RA Star' = number (field record 17 11) /\
     Star_Dec Star' = number (field record 28 12) /\
     Star_Mag Star' = number (field record 40 5) /\
     Star_Class Star' = field record 45 2 /\
     Star_PMRA Star' = number (field record 47 9) /\
     (exists text : list ascii,
        (length text <= 4)%nat /\ Star_PMDec Star' = number text) /\
     (forallb plain (field record 56 4) = true ->
      Star_PMDec Star' = number (field record 56 4))).
Proof.
  intros fp Stars index Star Hv Hlen Hi record Star'.
  destruct (validate_record fp Stars index Hv Hi) as (H0 & H1 & H2).
  change (skipn (Z.to_nat ((index + 4) * 61)) fp) with (from_record fp index) in record.
  assert (Hidx : (0 <= (index + 4) * streclen < 2 ^ 31)%Z) by lia.
  split.
  { unfold fseek_set. rewrite wrap_long_small by lia.
    destruct ((index + 4) * streclen <? 0)%Z eqn:E; [lia|reflexivity]. }
  split; [exact H2|].
  split.
  { intros SL. unfold fgets.
    pose proof (length_fgets_chars (Z.to_nat (streclen - 1)) (text_read record)) as B.
    change (Z.to_nat (streclen - 1)) with 60%nat in *.
    destruct (fgets_chars 60 (text_read record)) as [|c l]; [discriminate|].
    intro E. injection E as <-. unfold strlen.
    match goal with
    | |- context [c :: l ++ NUL :: ?t] =>
        change (c :: l ++ NUL :: t) with ((c :: l) ++ NUL :: t)
    end.
    rewrite cstr_app_NUL.
    etransitivity; [apply length_cstr|exact B]. }
  intro Hplain.
  assert (Hrec : from_record fp index = firstn 56 record ++ skipn 56 record)
    by (symmetry; apply firstn_skipn).
  assert (H56 : length (firstn 56 record) = 56%nat)
    by (rewrite length_firstn; subst record; lia).
  pose proof (GetStar_body_line auto_SL auto_S fp index Star _ _
                Hidx Hrec H56 Hplain) as G.
  subst Star'. unfold GetStar. rewrite G. cbn [fst snd].
  cbn [Star_Label Star_RA Star_Dec Star_Mag Star_Class Star_PMRA Star_PMDec].
  rewrite !field_firstn by lia.
  split; [reflexivity|].
  split.
  { apply cstr_terminated.
    apply plain_nonnul. rewrite <- (field_firstn record 56) by lia.
    now apply forallb_field. }
  do 5 (split; [reflexivity|]).
  split.
  { eexists. split; [|reflexivity].
    etransitivity; [apply length_cstr|apply length_fgets_chars]. }
  intro Hp.
  assert (E : skipn 56 record = field record 56 4 ++ skipn 60 record).
  { unfold field. rewrite <- (firstn_skipn 4 (skipn 56 record)) at 1.
    now rewrite skipn_skipn. }
  rewrite E, text_read_plain by assumption.
  assert (L4 : length (field record 56 4) = 4%nat)
    by (apply length_field; subst record; lia).
  pose proof (fgets_chars_plain (field record 56 4) 0 (text_read (skipn 60 record)) Hp) as F.
  rewrite L4 in F. cbn [Nat.add] in F. rewrite F.
  cbn [fgets_chars]. rewrite app_nil_r.
  now rewrite cstr_nonnul by now apply plain_nonnul.
Qed.

(** The record has 61 bytes, and the last members get less of them than
    the comments in [GetStar] name: the line that is read has at most 60
    characters, and the text given to [atof] for PMDEC has at most 4, the
    bytes 56-59 when these are plain. *)
Theorem GetStar_PMDec_text :
  forall (fp : store) (Stars index : Z) (Star : STARDATA),
    validate fp = DataFileOK Stars ->
    (Z.of_nat (length fp) < 2 ^ 31)%Z ->
    (1 <= index <= Stars)%Z ->
    let record := skipn (Z.to_nat ((index + 4) * 61)) fp in
    forallb plain (firstn 56 record) = true ->
    let Star' := GetStar auto_SL auto_S fp index Star in
    (exists line : list ascii,
       (length line <= 60)%nat /\
       fgets (auto_SL index) streclen record =
         Some (line ++ NUL :: skipn (S (length line)) (auto_SL index))) /\
    (exists text : list ascii,
       (length text <= 4)%nat /\ Star_PMDec Star' = number text) /\
    (forallb plain (field record 56 4) = true ->
     Star_PMDec Star' = number (field record 56 4)).
Proof.
  intros fp Stars index Star Hv Hlen Hi record Hplain Star'.
  destruct (validate_record fp Stars index Hv Hi) as (H0 & H1 & H2).
  change (skipn (Z.to_nat ((index + 4) * 61)) fp) with (from_record fp index) in record.
  assert (Hidx : (0 <= (index + 4) * streclen < 2 ^ 31)%Z) by lia.
  assert (Hrec : from_record fp index = firstn 56 record ++ skipn 56 record)
    by (symmetry; apply firstn_skipn).
  assert (H56 : length (firstn 56 record) = 56%nat)
    by (rewrite length_firstn; subst record; lia).
  pose proof (GetStar_body_line auto_SL auto_S fp index Star _ _
                Hidx Hrec H56 Hplain) as G.
  subst Star'. unfold GetStar. rewrite G. cbn [fst snd Star_PMDec].
  split.
  { apply fgets_record; [subst record; lia|exact Hplain]. }
  split.
  { eexists. split; [|reflexivity].
    etransitivity; [apply length_cstr|apply length_fgets_chars]. }
  intro Hp.
  assert (E : skipn 56 record = field record 56 4 ++ skipn 60 record).
  { unfold field. rewrite <- (firstn_skipn 4 (skipn 56 record)) at 1.
    now rewrite skipn_skipn. }
  rewrite E, text_read_plain by assumption.
  assert (L4 : length (field record 56 4) = 4%nat)
    by (apply length_field; subst record; lia).
  change 4%nat with (4 + 0)%nat at 1. rewrite <- L4 at 1.
  rewrite fgets_chars_plain by assumption.
  cbn [fgets_chars]. rewrite app_nil_r.
  now rewrite cstr_nonnul by now apply plain_nonnul.
Qed.

End Layout.

Lemma GetStar_field_layout_witness :
  fseek_set catalog (wrap_long ((1 + 4) * streclen)) =
    Some (skipn (Z.to_nat ((1 + 4) * 61)) catalog) /\
  (61 <= length (skipn (Z.to_nat ((1 + 4) * 61)) catalog))%nat.
Proof.
  destruct (GetStar_field_layout stack_junk stack_junk catalog 2 1 Star_initial)
    as (H1 & H2 & _).
  - vm_compute; reflexivity.
  - vm_compute; reflexivity.
  - lia.
  - split; [exact H1|exact H2].
Defined.

Lemma GetStar_PMDec_text_witness :
  exists text : list ascii,
    (length text <= 4)%nat /\
    Star_PMDec (GetStar stack_junk stack_junk catalog 1 Star_initial) = number text.
Proof.
  refine (proj1 (proj2
    (GetStar_PMDec_text stack_junk stack_junk catalog 2 1 Star_initial _ _ _ _))).
  - vm_compute; reflexivity.
  - vm_compute; reflexivity.
  - lia.
  - vm_compute; reflexivity.
Defined.

Lemma GetStar_Polaris auto_SL auto_S fp index Star rest :
  (0 <= (index + 4) * streclen < 2 ^ 31)%Z ->
  from_record fp index = Polaris_record ++ rest ->
  GetStar_body auto_SL auto_S fp index Star = (0%Z, Polaris (Star_Label Star)).
Proof.
  intros Hidx Hrec.
  rewrite (GetStar_body_line auto_SL auto_S fp index Star
             (firstn 56 Polaris_record) (skipn 56 Polaris_record ++ rest)); try assumption.
  - reflexivity.
  - reflexivity.
  - reflexivity.
Qed.

Lemma number_Polaris_Mag : number (chars " 2.00") = 2%R.
Proof. number_eval (chars " 2.00"). lra. Qed.

Lemma number_Polaris_PMDec : number (chars "-11.") = (-11)%R.
Proof. number_eval (chars "-11."). lra. Qed.

(** The failing input of C2: the first star of [catalog].  Bytes 56-60 of
    its record hold -11.7, the last 5 bytes of the 61; the line that is read
    has 60 characters, and the proper motion in Dec is stored as -11, read
    from bytes 56-59. *)
Lemma GetStar_not_as_tabulated :
  validate catalog = DataFileOK 2 /\
  forall (auto_SL auto_S : Z -> buf) (Star : STARDATA),
    let record := skipn (Z.to_nat ((1 + 4) * 61)) catalog in
    let Star' := GetStar auto_SL auto_S catalog 1 Star in
    field record 56 5 = chars "-11.7" /\
    number (chars "-11.7") = (-117 / 10)%R /\
    Star_PMDec Star' = (-11)%R /\
    Star_PMDec Star' <> number (field record 56 9) /\
    exists SL, fgets (auto_SL 1%Z) streclen record = Some SL /\ strlen SL = 60%nat.
Proof.
  split; [reflexivity|]. intros auto_SL auto_S Star record Star'.
  assert (G : Star' = Polaris (Star_Label Star)).
  { subst Star'. unfold GetStar.
    rewrite (GetStar_Polaris auto_SL auto_S catalog 1 Star faint_record); try reflexivity.
    unfold streclen; lia. }
  rewrite G. unfold Polaris.
  cbn [Star_Label Star_PMDec].
  split; [reflexivity|]. split; [|split; [|split]].
  - number_eval (chars "-11.7"). lra.
  - exact number_Polaris_PMDec.
  - replace (field record 56 9) with (chars "-11.7Fain") by (vm_compute; reflexivity).
    rewrite number_Polaris_PMDec.
    number_eval (chars "-11.7Fain"). lra.
  - unfold fgets. change (Z.to_nat (streclen - 1)) with 60%nat.
    replace (fgets_chars 60 (text_read record)) with (firstn 60 Polaris_record)
      by (vm_compute; reflexivity).
    exists (firstn 60 Polaris_record ++ NUL :: skipn 61 (auto_SL 1%Z)).
    split; [reflexivity|].
    unfold strlen. rewrite cstr_app_nonnul by reflexivity.
    cbn [cstr]. rewrite Ascii.eqb_refl, app_nil_r. reflexivity.
Qed.

(** ** C5: the label and [rtrim] *)

Lemma trim_tail_snoc s x :
  trim_tail (s ++ [x]) = if Ascii.eqb x SPACE then trim_tail s else s ++ [x].
Proof.
  unfold trim_tail. rewrite rev_app_distr. cbn [rev app drop_spaces].
  destruct (Ascii.eqb x SPACE); [reflexivity|].
  cbn [rev]. now rewrite rev_involutive.
Qed.

(** [trim_tail] cuts spaces only, and cuts all of them. *)
Lemma trim_tail_spec s :
  (exists k, s = trim_tail s ++ repeat SPACE k) /\
  (trim_tail s = [] \/ last (trim_tail s) NUL <> SPACE).
Proof.
  induction s as [|x s IH] using rev_ind.
  - split; [now exists 0%nat|now left].
  - rewrite trim_tail_snoc. destruct (Ascii.eqb_spec x SPACE) as [->|Hx].
    + destruct IH as [[k Hk] Hl]. split; [|exact Hl].
      exists (S k). rewrite Hk at 1. rewrite <- app_assoc. f_equal.
      change [SPACE] with (repeat SPACE 1). rewrite <- repeat_app.
      now rewrite Nat.add_comm.
    + split; [exists 0%nat; now rewrite app_nil_r|].
      right. now rewrite last_last.
Qed.

Lemma nth_middle_cons (c : ascii) s x t :
  nth (S (length s)) (c :: s ++ x :: t) NUL = x.
Proof. cbn [nth]. apply nth_middle. Qed.

Lemma poke_middle_cons (c : ascii) s x t y :
  poke (c :: s ++ x :: t) (S (length s)) y = c :: s ++ y :: t.
Proof.
  cbn [poke]. f_equal. rewrite poke_app_ge by lia.
  now rewrite Nat.sub_diag.
Qed.

(** The loop of [rtrim] on a string [c :: s]: the first character stays, and
    the rest loses its trailing spaces. *)
Lemma rtrim_loop_spec c : forall s t,
  forallb nonnul (c :: s) = true ->
  cstr (rtrim_loop (length s) (c :: s ++ NUL :: t)) = c :: trim_tail s.
Proof.
  induction s as [|x s IH] using rev_ind; intros t H.
  - cbn [length rtrim_loop app]. cbn [forallb] in H.
    apply andb_true_iff in H as [Hc _]. unfold nonnul in Hc.
    apply negb_true_iff in Hc. cbn [cstr]. now rewrite Hc, Ascii.eqb_refl.
  - rewrite length_app, Nat.add_comm. cbn [length Nat.add rtrim_loop].
    rewrite <- app_assoc. cbn [app].
    rewrite nth_middle_cons, trim_tail_snoc.
    assert (Hs : forallb nonnul (c :: s) = true).
    { cbn [forallb] in *. rewrite forallb_app in H.
      apply andb_true_iff in H as [-> H]. now apply andb_true_iff in H as [-> _]. }
    destruct (Ascii.eqb x SPACE) eqn:E.
    + rewrite poke_middle_cons. apply IH. exact Hs.
    + replace (c :: s ++ x :: NUL :: t) with ((c :: s ++ [x]) ++ NUL :: t)
        by (cbn [app]; now rewrite <- app_assoc).
      rewrite cstr_app_nonnul by exact H.
      cbn [cstr]. now rewrite Ascii.eqb_refl, app_nil_r.
Qed.

Lemma rtrim_spec c s t :
  forallb nonnul (c :: s) = true ->
  cstr (rtrim (c :: s ++ NUL :: t)) = c :: trim_tail s.
Proof.
  intro H. unfold rtrim, strlen.
  change (c :: s ++ NUL :: t) with ((c :: s) ++ NUL :: t) at 1.
  rewrite cstr_app_nonnul by exact H.
  cbn [cstr]. rewrite Ascii.eqb_refl, app_nil_r.
  cbn [length Nat.sub]. rewrite Nat.sub_0_r.
  now apply rtrim_loop_spec.
Qed.

(** [rtrim] never looks at the first character: the loop stops at [i > 0].
    On a string of spaces only, one space is left. *)
Theorem rtrim_keeps_first_character :
  forall (c : ascii) (s t : list ascii),
    forallb nonnul (c :: s) = true ->
    cstr (rtrim (c :: s ++ NUL :: t)) = c :: trim_tail s.
Proof. intros c s t H. now apply rtrim_spec. Qed.

Lemma rtrim_keeps_first_character_witness :
  cstr (rtrim (SPACE :: chars "  " ++ NUL :: [])) = SPACE :: trim_tail (chars "  ").
Proof.
  apply (rtrim_keeps_first_character SPACE (chars "  ") []). reflexivity.
Defined.

(** What [GetStar] stores for a star of a checked store whose record has its
    first 56 bytes plain. *)
Lemma GetStar_checked_record auto_SL auto_S fp Stars index Star :
  validate fp = DataFileOK Stars ->
  (Z.of_nat (length fp) < 2 ^ 31)%Z ->
  (1 <= index <= Stars)%Z ->
  forallb plain (firstn 56 (from_record fp index)) = true ->
  GetStar_body auto_SL auto_S fp index Star =
    (0%Z,
     mkSTARDATA (field (from_record fp index) 0 16 ++ NUL :: skipn 17 (Star_Label Star))
       (number (field (from_record fp index) 17 11))
       (number (field (from_record fp index) 28 12))
       (number (field (from_record fp index) 40 5))
       (field (from_record fp index) 45 2)
       (number (field (from_record fp index) 47 9))
       (number (cstr (fgets_chars 4 (text_read (skipn 56 (from_record fp index))))))).
Proof.
  intros Hv Hlen Hi Hplain.
  destruct (validate_record fp Stars index Hv Hi) as (H0 & H1 & H2).
  rewrite (GetStar_body_line auto_SL auto_S fp index Star
             (firstn 56 (from_record fp index)) (skipn 56 (from_record fp index))).
  - now rewrite !field_firstn by lia.
  - lia.
  - symmetry. apply firstn_skipn.
  - rewrite length_firstn. lia.
  - exact Hplain.
Qed.

(** [rtrim] on a string that holds a character other than a space: the
    spaces at the right end go, and nothing else. *)
Lemma rtrim_strips_right_end (s t : list ascii) :
  forallb nonnul s = true ->
  existsb (fun c => negb (Ascii.eqb c SPACE)) s = true ->
  exists k : nat,
    s = cstr (rtrim (s ++ NUL :: t)) ++ repeat SPACE k /\
    last (cstr (rtrim (s ++ NUL :: t))) NUL <> SPACE.
Proof.
  intros Hn He. destruct s as [|c s]; [discriminate|].
  cbn [app]. rewrite rtrim_spec by exact Hn.
  destruct (trim_tail_spec s) as [[k Hk] Hl]. exists k. split.
  - cbn [app]. f_equal. exact Hk.
  - destruct (trim_tail s) as [|x p] eqn:E.
    + cbn [app] in Hk. subst s. cbn [last].
      cbn [existsb] in He. apply orb_true_iff in He as [He|He].
      * apply negb_true_iff in He. now apply Ascii.eqb_neq.
      * exfalso. clear Hn Hl E. induction k as [|k IH]; [discriminate|].
        cbn [repeat existsb] in He. rewrite Ascii.eqb_refl in He.
        cbn [negb orb] in He. now apply IH.
    + destruct Hl as [Hl|Hl]; [discriminate|]. exact Hl.
Qed.

(** C5, as the code has it.  [GetStar] stores the label as bytes 0-15 of the
    record with its trailing spaces: neither [GetStar] nor the paint loop
    calls [rtrim].  [rtrim] itself, on a string that holds a character other
    than a space, cuts the spaces at the right end, down to the first
    character that is no space, so spaces in front and inside stay.  The
    label read from [Polaris_record] is Polaris followed by 9 spaces, and
    [rtrim] makes it Polaris. *)
Theorem label_stored_untrimmed :
  (forall (auto_SL auto_S : Z -> buf) (fp : store) (Stars index : Z) (Star : STARDATA),
     validate fp = DataFileOK Stars ->
     (Z.of_nat (length fp) < 2 ^ 31)%Z ->
     (1 <= index <= Stars)%Z ->
     let record := skipn (Z.to_nat ((index + 4) * 61)) fp in
     forallb plain (firstn 56 record) = true ->
     cstr (Star_Label (GetStar auto_SL auto_S fp index Star)) = field record 0 16) /\
  (forall s t : list ascii,
     forallb nonnul s = true ->
     existsb (fun c => negb (Ascii.eqb c SPACE)) s = true ->
     exists k : nat,
       s = cstr (rtrim (s ++ NUL :: t)) ++ repeat SPACE k /\
       last (cstr (rtrim (s ++ NUL :: t))) NUL <> SPACE) /\
  (forall (auto_SL auto_S : Z -> buf) (Star : STARDATA),
     let Label := Star_Label (GetStar auto_SL auto_S catalog 1 Star) in
     field (skipn (Z.to_nat ((1 + 4) * 61)) catalog) 0 17 = chars "Polaris          " /\
     cstr Label = chars "Polaris         " /\
     cstr (rtrim Label) = chars "Polaris").
Proof.
  split; [|split].
  - intros auto_SL auto_S fp Stars index Star Hv Hlen Hi record Hplain.
    unfold GetStar.
    rewrite (GetStar_checked_record auto_SL auto_S fp Stars index Star Hv Hlen Hi Hplain).
    cbn [snd Star_Label]. apply cstr_terminated.
    apply plain_nonnul. rewrite <- (field_firstn _ 56) by lia.
    now apply forallb_field.
  - exact rtrim_strips_right_end.
  - intros auto_SL auto_S Star Label. subst Label. unfold GetStar.
    rewrite (GetStar_Polaris auto_SL auto_S catalog 1 Star faint_record);
      [|unfold streclen; lia|reflexivity].
    cbn [snd Polaris Star_Label].
    split; [reflexivity|]. split.
    + now apply cstr_terminated.
    + change (chars "Polaris         " ++ NUL :: skipn 17 (Star_Label Star))
        with ("P"%char :: chars "olaris         " ++ NUL :: skipn 17 (Star_Label Star)).
      rewrite rtrim_spec by reflexivity. reflexivity.
Qed.

(** C5 as stated fails on [catalog]: the label field of the first star is
    Polaris padded to 17 bytes, and the label [GetStar] stores is not
    Polaris. *)
Lemma label_read_with_trailing_spaces :
  validate catalog = DataFileOK 2 /\
  field (skipn (Z.to_nat ((1 + 4) * 61)) catalog) 0 17 = chars "Polaris          " /\
  forall (auto_SL auto_S : Z -> buf) (Star : STARDATA),
    cstr (Star_Label (GetStar auto_SL auto_S catalog 1 Star)) <> chars "Polaris".
Proof.
  split; [reflexivity|]. split; [reflexivity|].
  intros auto_SL auto_S Star. unfold GetStar.
  rewrite (GetStar_Polaris auto_SL auto_S catalog 1 Star faint_record);
    [|unfold streclen; lia|reflexivity].
  cbn [snd Polaris Star_Label]. rewrite cstr_terminated by reflexivity.
  discriminate.
Qed.

(** ** Conversion to [int] *)

Local Open Scope R_scope.

Lemma Int_part_bounds x : IZR (Int_part x) <= x < IZR (Int_part x) + 1.
Proof. destruct (base_Int_part x). lra. Qed.

(** [(int) x] drops the fraction: it rounds toward zero. *)
Lemma int_of_double_trunc x :
  (0 <= x -> IZR (int_of_double x) <= x < IZR (int_of_double x) + 1) /\
  (x <= 0 -> IZR (int_of_double x) - 1 < x <= IZR (int_of_double x)).
Proof.
  unfold int_of_double. destruct (Rle_dec 0 x) as [H|H].
  - pose proof (Int_part_bounds x). split; intros; [lra|].
    assert (x = 0) as -> by lra.
    replace (Int_part 0) with 0%Z by (apply Int_part_spec; lra). lra.
  - pose proof (Int_part_bounds (- x)). rewrite opp_IZR. split; intros; lra.
Qed.

Lemma int_of_double_IZR z : int_of_double (IZR z) = z.
Proof.
  unfold int_of_double. destruct (Rle_dec 0 (IZR z)).
  - symmetry. apply Int_part_spec. lra.
  - rewrite <- opp_IZR. rewrite <- (Int_part_spec (IZR (- z)) (- z)%Z); [lia|lra].
Qed.


(** ** C6: the symbol size *)

(** C6.  The size is [limit - mag + 0.5] when [limit <= 15] and
    [15 - mag + 0.5] otherwise, brought into [1, 8]: it is 1 when that value
    is below 1, 8 when it is above 8, and the value itself in between. *)
Theorem sz_formula_clamped :
  forall limit mag : R,
    exists raw : R,
      (limit <= 15 -> raw = limit - mag + 0.5) /\
      (15 < limit -> raw = 15 - mag + 0.5) /\
      (raw < 1 -> sz limit mag = 1) /\
      (1 <= raw <= 8 -> sz limit mag = raw) /\
      (8 < raw -> sz limit mag = 8) /\
      1 <= sz limit mag <= 8.
Proof.
  intros limit mag. unfold sz.
  destruct (Rle_dec limit 15) as [L|L];
    [exists (limit - mag + 0.5)|exists (15 - mag + 0.5)];
    (split; [intros; lra|]); (split; [intros; lra|]);
    match goal with |- context [Rlt_dec ?r 1] => destruct (Rlt_dec r 1) end;
    match goal with |- context [Rlt_dec 8 ?r] => destruct (Rlt_dec 8 r) end;
    repeat split; intros; lra.
Qed.

(** ** C9: the conversion of the position to a pixel *)











(** ** The paint loop *)

Lemma sz_6_5_2 : sz 6.5 2 = 5.
Proof.
  unfold sz. destruct (Rle_dec 6.5 15); [|lra].
  destruct (Rlt_dec (6.5 - 2 + 0.50) 1); [lra|].
  destruct (Rlt_dec 8 (6.5 - 2 + 0.50)); lra.
Qed.

Lemma EQConvert_keeps_Mag DsC RA Dec : DsC_Mag (EQConvert DsC RA Dec) = DsC_Mag DsC.
Proof. reflexivity. Qed.

(** [EQConvert] reads neither [CX] nor [CY]. *)
Lemma EQConvert_again DsC RA Dec RA' Dec' :
  EQConvert (EQConvert DsC RA' Dec') RA Dec = EQConvert DsC RA Dec.
Proof. reflexivity. Qed.

Section Paint_facts.

Variables auto_SL auto_S : Z -> buf.
Variable fp : store.

(** A star fainter than the limit: nothing is drawn. *)
Lemma paint_star_skip i st :
  DsC_Mag (p_DsC st) < Star_Mag (GetStar auto_SL auto_S fp i (p_Star st)) ->
  paint_star auto_SL auto_S fp i st =
  mkPaint (GetStar auto_SL auto_S fp i (p_Star st)) (p_DsC st) (p_out st).
Proof.
  intro H. unfold paint_star.
  destruct (Rle_dec _ _); [lra|reflexivity].
Qed.

Lemma paint_star_fainter_skipped i st :
  DsC_Mag (p_DsC st) < Star_Mag (GetStar auto_SL auto_S fp i (p_Star st)) ->
  p_out (paint_star auto_SL auto_S fp i st) = p_out st.
Proof. intro H. now rewrite paint_star_skip. Qed.

(** A star of magnitude 2 under the limit 6.5: an ellipse of size 5 and
    the label. *)
Lemma paint_star_mag_2 i st :
  DsC_Mag (p_DsC st) = 6.5 ->
  Star_Mag (GetStar auto_SL auto_S fp i (p_Star st)) = 2 ->
  paint_star auto_SL auto_S fp i st =
  mkPaint (GetStar auto_SL auto_S fp i (p_Star st))
    (EQConvert (p_DsC st)
       (Star_RA (GetStar auto_SL auto_S fp i (p_Star st)))
       (Star_Dec (GetStar auto_SL auto_S fp i (p_Star st))))
    (p_out st ++
     calls_size_5
       (EQConvert (p_DsC st)
          (Star_RA (GetStar auto_SL auto_S fp i (p_Star st)))
          (Star_Dec (GetStar auto_SL auto_S fp i (p_Star st))))
       (cstr (Star_Label (GetStar auto_SL auto_S fp i (p_Star st))))).
Proof.
  intros HL HM. unfold paint_star, calls_size_5.
  rewrite EQConvert_keeps_Mag, HL, HM, sz_6_5_2.
  change 5 with (IZR 5). rewrite int_of_double_IZR.
  destruct (Rle_dec 2 6.5); [|lra].
  destruct (Req_dec_T (IZR 5) 1); [lra|].
  destruct (Rlt_dec 2 (6.5 - 3)); [|lra].
  reflexivity.
Qed.

(** The loop over a store of two stars. *)
Lemma WM_PAINT_two right bottom DsC Star :
  validate fp = DataFileOK 2 ->
  WM_PAINT auto_SL auto_S (Some fp) right bottom DsC Star =
  paint_star auto_SL auto_S fp 2
    (paint_star auto_SL auto_S fp 1
       (mkPaint Star (set_Stars (set_MaxX_MaxY DsC right bottom) 2) [SetBkMode OPAQUE])).
Proof.
  intro H. unfold WM_PAINT. unfold validate in H. rewrite H. reflexivity.
Qed.

End Paint_facts.

(** ** C10: a catalogue of two stars *)

Lemma field_app r rest from width :
  (from + width <= length r)%nat -> field (r ++ rest) from width = field r from width.
Proof.
  intro H. unfold field. rewrite skipn_app, firstn_app, length_skipn.
  replace (from - length r)%nat with 0%nat by lia.
  replace (width - (length r - from))%nat with 0%nat by lia.
  cbn [firstn skipn]. now rewrite app_nil_r.
Qed.

Lemma firstn_app_l {A} n (r rest : list A) :
  (n <= length r)%nat -> firstn n (r ++ rest) = firstn n r.
Proof.
  intro H. rewrite firstn_app. replace (n - length r)%nat with 0%nat by lia.
  cbn [firstn]. now rewrite app_nil_r.
Qed.

Section Two_stars.

Variables auto_SL auto_S : Z -> buf.
Variables hdr r1 r2 : list ascii.

Hypothesis length_hdr : length hdr = (5 * 61)%nat.
Hypothesis length_r1 : length r1 = 61%nat.
Hypothesis length_r2 : length r2 = 61%nat.
Hypothesis plain_r1 : forallb plain (firstn 56 r1) = true.
Hypothesis plain_r2 : forallb plain (firstn 56 r2) = true.

Lemma two_stars_valid : validate (hdr ++ r1 ++ r2) = DataFileOK 2.
Proof.
  unfold validate, ftell_end. rewrite !length_app.
  rewrite length_hdr, length_r1, length_r2. reflexivity.
Qed.

Lemma two_stars_record_1 : from_record (hdr ++ r1 ++ r2) 1 = r1 ++ r2.
Proof.
  unfold from_record. change (Z.to_nat ((1 + 4) * streclen)) with (5 * 61)%nat.
  rewrite <- length_hdr, skipn_app, Nat.sub_diag, skipn_all. reflexivity.
Qed.

Lemma two_stars_record_2 : from_record (hdr ++ r1 ++ r2) 2 = r2.
Proof.
  unfold from_record. change (Z.to_nat ((2 + 4) * streclen)) with (61 + 5 * 61)%nat.
  rewrite <- skipn_skipn.
  rewrite <- length_hdr, skipn_app, Nat.sub_diag, skipn_all, skipn_O. cbn [app].
  rewrite <- length_r1, skipn_app, Nat.sub_diag, skipn_all. reflexivity.
Qed.

Lemma two_stars_length : (Z.of_nat (length (hdr ++ r1 ++ r2)) < 2 ^ 31)%Z.
Proof.
  rewrite !length_app, length_hdr, length_r1, length_r2. reflexivity.
Qed.

(** The two stars, as [GetStar] stores them. *)
Lemma two_stars_GetStar_1 Star :
  cstr (Star_Label (GetStar auto_SL auto_S (hdr ++ r1 ++ r2) 1 Star)) = field r1 0 16 /\
  Star_RA (GetStar auto_SL auto_S (hdr ++ r1 ++ r2) 1 Star) = number (field r1 17 11) /\
  Star_Dec (GetStar auto_SL auto_S (hdr ++ r1 ++ r2) 1 Star) = number (field r1 28 12) /\
  Star_Mag (GetStar auto_SL auto_S (hdr ++ r1 ++ r2) 1 Star) = number (field r1 40 5).
Proof.
  unfold GetStar.
  rewrite (GetStar_checked_record auto_SL auto_S (hdr ++ r1 ++ r2) 2 1 Star
             two_stars_valid two_stars_length ltac:(lia)).
  2:{ rewrite two_stars_record_1, firstn_app_l by lia. exact plain_r1. }
  cbn [snd Star_Label Star_RA Star_Dec Star_Mag].
  rewrite two_stars_record_1, !field_app by lia.
  repeat split. apply cstr_terminated.
  apply plain_nonnul. rewrite <- (field_firstn r1 56) by lia.
  now apply forallb_field.
Qed.

Lemma two_stars_GetStar_2 Star :
  cstr (Star_Label (GetStar auto_SL auto_S (hdr ++ r1 ++ r2) 2 Star)) = field r2 0 16 /\
  Star_RA (GetStar auto_SL auto_S (hdr ++ r1 ++ r2) 2 Star) = number (field r2 17 11) /\
  Star_Dec (GetStar auto_SL auto_S (hdr ++ r1 ++ r2) 2 Star) = number (field r2 28 12) /\
  Star_Mag (GetStar auto_SL auto_S (hdr ++ r1 ++ r2) 2 Star) = number (field r2 40 5).
Proof.
  unfold GetStar.
  rewrite (GetStar_checked_record auto_SL auto_S (hdr ++ r1 ++ r2) 2 2 Star
             two_stars_valid two_stars_length ltac:(lia)).
  2:{ rewrite two_stars_record_2. exact plain_r2. }
  cbn [snd Star_Label Star_RA Star_Dec Star_Mag].
  rewrite two_stars_record_2.
  repeat split. apply cstr_terminated.
  apply plain_nonnul. rewrite <- (field_firstn r2 56) by lia.
  now apply forallb_field.
Qed.

Variables right bottom : Z.
Variable DsC : DSCONTROL.
Variable Star : STARDATA.
Hypothesis limit : DsC_Mag DsC = 6.5.

(** The paint under the limit 6.5 when the first star has magnitude 2 and
    the second magnitude 9. *)
Lemma two_stars_paint_2_9 :
  number (field r1 40 5) = 2 ->
  number (field r2 40 5) = 9 ->
  p_out (WM_PAINT auto_SL auto_S (Some (hdr ++ r1 ++ r2)) right bottom DsC Star) =
  SetBkMode OPAQUE ::
  calls_size_5
    (EQConvert (set_Stars (set_MaxX_MaxY DsC right bottom) 2)
       (number (field r1 17 11)) (number (field r1 28 12)))
    (field r1 0 16).
Proof.
  intros M1 M2.
  rewrite WM_PAINT_two by apply two_stars_valid.
  destruct (two_stars_GetStar_1 Star) as (GL & GRA & GDec & GMag).
  rewrite (paint_star_mag_2 auto_SL auto_S _ 1); cbn [p_DsC p_Star p_out].
  2:{ exact limit. }
  2:{ rewrite GMag. exact M1. }
  rewrite paint_star_skip; cbn [p_DsC p_Star p_out].
  2:{ destruct (two_stars_GetStar_2 (GetStar auto_SL auto_S (hdr ++ r1 ++ r2) 1 Star))
        as (_ & _ & _ & ->).
      rewrite M2, EQConvert_keeps_Mag.
      cbn [set_Stars set_MaxX_MaxY DsC_Mag]. rewrite limit. lra. }
  rewrite GL, GRA, GDec. reflexivity.
Qed.

(** The same when the star of magnitude 9 comes first. *)
Lemma two_stars_paint_9_2 :
  number (field r1 40 5) = 9 ->
  number (field r2 40 5) = 2 ->
  p_out (WM_PAINT auto_SL auto_S (Some (hdr ++ r1 ++ r2)) right bottom DsC Star) =
  SetBkMode OPAQUE ::
  calls_size_5
    (EQConvert (set_Stars (set_MaxX_MaxY DsC right bottom) 2)
       (number (field r2 17 11)) (number (field r2 28 12)))
    (field r2 0 16).
Proof.
  intros M1 M2.
  rewrite WM_PAINT_two by apply two_stars_valid.
  destruct (two_stars_GetStar_1 Star) as (_ & _ & _ & GMag).
  rewrite (paint_star_skip auto_SL auto_S _ 1); cbn [p_DsC p_Star p_out].
  2:{ rewrite GMag, M1. cbn [set_Stars set_MaxX_MaxY DsC_Mag]. rewrite limit. lra. }
  destruct (two_stars_GetStar_2 (GetStar auto_SL auto_S (hdr ++ r1 ++ r2) 1 Star))
    as (GL & GRA & GDec & GMag2).
  rewrite (paint_star_mag_2 auto_SL auto_S _ 2); cbn [p_DsC p_Star p_out].
  2:{ exact limit. }
  2:{ rewrite GMag2. exact M2. }
  rewrite GL, GRA, GDec. reflexivity.
Qed.

End Two_stars.

(** C10, as the code has it.  For a store of 5 header records and two star
    records, one of magnitude 2.0 and one of magnitude 9.0 in either order,
    a paint with the limit 6.5 draws for the star of magnitude 2.0 only: its
    symbol, an ellipse of size 5, and, as 2.0 < 6.5 - 3.0, its label.  These
    are two drawing calls, not one.  The star of magnitude 9.0 is skipped:
    in every round of the loop a star whose magnitude is above the limit adds
    no call. *)
Theorem paint_magnitudes_2_and_9 :
  forall (auto_SL auto_S : Z -> buf) (hdr r1 r2 bright faint : list ascii)
         (right bottom : Z) (DsC : DSCONTROL) (Star : STARDATA),
    length hdr = (5 * 61)%nat ->
    length bright = 61%nat -> length faint = 61%nat ->
    forallb plain (firstn 56 bright) = true ->
    forallb plain (firstn 56 faint) = true ->
    number (field bright 40 5) = 2 ->
    number (field faint 40 5) = 9 ->
    (r1 = bright /\ r2 = faint) \/ (r1 = faint /\ r2 = bright) ->
    DsC_Mag DsC = 6.5 ->
    let fp := hdr ++ r1 ++ r2 in
    let st := WM_PAINT auto_SL auto_S (Some fp) right bottom DsC Star in
    let d := EQConvert (set_Stars (set_MaxX_MaxY DsC right bottom) 2)
               (number (field bright 17 11)) (number (field bright 28 12)) in
    validate fp = DataFileOK 2 /\
    drawing st =
      [Ellipse (DsC_CX d - 5) (DsC_CY d - 5) (DsC_CX d + 5) (DsC_CY d + 5);
       TextOut (DsC_CX d + 5) (DsC_CY d - 5) (field bright 0 16)] /\
    (forall (i : Z) (st0 : paint_state),
       DsC_Mag (p_DsC st0) < Star_Mag (GetStar auto_SL auto_S fp i (p_Star st0)) ->
       p_out (paint_star auto_SL auto_S fp i st0) = p_out st0).
Proof.
  intros auto_SL auto_S hdr r1 r2 bright faint right bottom DsC Star
    Lh Lb Lf Pb Pf Mb Mf [[-> ->]|[-> ->]] ML fp st d.
  - split; [now apply two_stars_valid|]. split.
    + unfold drawing. subst st fp.
      rewrite (two_stars_paint_2_9 auto_SL auto_S hdr bright faint) by assumption.
      reflexivity.
    + intros i st0. apply paint_star_fainter_skipped.
  - split; [now apply two_stars_valid|]. split.
    + unfold drawing. subst st fp.
      rewrite (two_stars_paint_9_2 auto_SL auto_S hdr faint bright) by assumption.
      reflexivity.
    + intros i st0. apply paint_star_fainter_skipped.
Qed.

Lemma number_faint_Mag : number (chars " 9.00") = 9%R.
Proof. number_eval (chars " 9.00"). lra. Qed.

Lemma paint_magnitudes_2_and_9_witness :
  let DsC := WM_CREATE DsC_initial in
  let st := WM_PAINT stack_junk stack_junk (Some catalog) 640 480 DsC Star_initial in
  let d := EQConvert (set_Stars (set_MaxX_MaxY DsC 640 480) 2)
             (number (field Polaris_record 17 11)) (number (field Polaris_record 28 12)) in
  drawing st =
    [Ellipse (DsC_CX d - 5) (DsC_CY d - 5) (DsC_CX d + 5) (DsC_CY d + 5);
     TextOut (DsC_CX d + 5) (DsC_CY d - 5) (field Polaris_record 0 16)].
Proof.
  refine (proj1 (proj2
    (paint_magnitudes_2_and_9 stack_junk stack_junk header Polaris_record faint_record
       Polaris_record faint_record 640 480 (WM_CREATE DsC_initial) Star_initial
       _ _ _ _ _ _ _ _ _))).
  - reflexivity.
  - reflexivity.
  - reflexivity.
  - reflexivity.
  - reflexivity.
  - exact number_Polaris_Mag.
  - exact number_faint_Mag.
  - left. split; reflexivity.
  - reflexivity.
Defined.

(** C10 as stated fails on [catalog]: the paint makes two drawing calls for
    the star of magnitude 2.0, the ellipse and the label. *)
Lemma paint_catalog_draws_symbol_and_label :
  let st := WM_PAINT stack_junk stack_junk (Some catalog) 640 480
              (WM_CREATE DsC_initial) Star_initial in
  validate catalog = DataFileOK 2 /\
  length (drawing st) = 2%nat /\
  exists X1 Y1 X2 Y2 X Y : Z,
    drawing st = [Ellipse X1 Y1 X2 Y2; TextOut X Y (chars "Polaris         ")].
Proof.
  intro st. split; [reflexivity|].
  assert (E : p_out st = _) by
    (apply (two_stars_paint_2_9 stack_junk stack_junk header Polaris_record faint_record);
     first [reflexivity|exact number_Polaris_Mag|exact number_faint_Mag]).
  unfold drawing. rewrite E. cbn [filter draws calls_size_5].
  split; [reflexivity|]. do 6 eexists. reflexivity.
Qed.

(** ** C4: a read that fails *)

(** The second record of [catalog_eof] cannot be read: text mode meets
    Ctrl-Z, [fgets] returns NULL, and [error] is set. *)
Lemma GetStar_eof_record auto_SL auto_S Star :
  GetStar_body auto_SL auto_S catalog_eof 2 Star = (1%Z, Star).
Proof. reflexivity. Qed.

Lemma GetStar_eof_1 auto_SL auto_S Star :
  GetStar auto_SL auto_S catalog_eof 1 Star = Polaris (Star_Label Star).
Proof.
  unfold GetStar.
  rewrite (GetStar_Polaris auto_SL auto_S catalog_eof 1 Star eof_record);
    [reflexivity|unfold streclen; lia|reflexivity].
Qed.

Lemma GetStar_eof_2 auto_SL auto_S Star :
  GetStar auto_SL auto_S catalog_eof 2 Star = Star.
Proof. unfold GetStar. now rewrite GetStar_eof_record. Qed.

Lemma validate_catalog_eof : validate catalog_eof = DataFileOK 2.
Proof. reflexivity. Qed.

(** The two rounds of the loop over [catalog_eof]: the first reads Polaris
    and draws it, the second finds Polaris still in [Star] and draws it. *)
Lemma paint_eof_round_1 auto_SL auto_S d Star out :
  DsC_Mag d = 6.5 ->
  paint_star auto_SL auto_S catalog_eof 1 (mkPaint Star d out) =
  mkPaint (Polaris (Star_Label Star))
    (EQConvert d (number (chars "  37.954561")) (number (chars "  +89.264109")))
    (out ++
     calls_size_5
       (EQConvert d (number (chars "  37.954561")) (number (chars "  +89.264109")))
       (chars "Polaris         ")).
Proof.
  intro H.
  rewrite (paint_star_mag_2 auto_SL auto_S catalog_eof 1); cbn [p_DsC p_Star p_out].
  - rewrite GetStar_eof_1. cbn [Polaris Star_RA Star_Dec Star_Label].
    rewrite cstr_terminated by reflexivity. reflexivity.
  - exact H.
  - rewrite GetStar_eof_1. exact number_Polaris_Mag.
Qed.

Lemma paint_eof_round_2 auto_SL auto_S d L out :
  DsC_Mag d = 6.5 ->
  paint_star auto_SL auto_S catalog_eof 2 (mkPaint (Polaris L) d out) =
  mkPaint (Polaris L)
    (EQConvert d (number (chars "  37.954561")) (number (chars "  +89.264109")))
    (out ++
     calls_size_5
       (EQConvert d (number (chars "  37.954561")) (number (chars "  +89.264109")))
       (chars "Polaris         ")).
Proof.
  intro H.
  rewrite (paint_star_mag_2 auto_SL auto_S catalog_eof 2); cbn [p_DsC p_Star p_out].
  - rewrite GetStar_eof_2. cbn [Polaris Star_RA Star_Dec Star_Label].
    rewrite cstr_terminated by reflexivity. reflexivity.
  - exact H.
  - rewrite GetStar_eof_2. exact number_Polaris_Mag.
Qed.

(** A round of the loop whose read fails works on the star of an earlier
    round: when that star is within the limit, its symbol is drawn. *)
Lemma paint_star_after_failed_read auto_SL auto_S fp i st :
  fst (GetStar_body auto_SL auto_S fp i (p_Star st)) = 1%Z ->
  Star_Mag (p_Star st) <= DsC_Mag (p_DsC st) ->
  exists (symbol : gdi_call) (rest : list gdi_call),
    draws symbol = true /\
    p_out (paint_star auto_SL auto_S fp i st) =
    p_out st ++ SetBkMode OPAQUE :: symbol :: rest.
Proof.
  intros He Hm.
  assert (G : GetStar auto_SL auto_S fp i (p_Star st) = p_Star st).
  { revert He. unfold GetStar, GetStar_body.
    destruct (fseek_set fp _); [|reflexivity].
    destruct (fgets _ _ _); [|reflexivity].
    cbn. discriminate. }
  unfold paint_star. rewrite G.
  destruct (Rle_dec (Star_Mag (p_Star st)) (DsC_Mag (p_DsC st))); [|contradiction].
  cbn [p_out app].
  destruct (Req_dec_T _ 1); eexists; eexists; (split; [|reflexivity]); reflexivity.
Qed.

(** C4 is not what the code does.  On [catalog_eof] the store passes the
    integrity check with 2 stars, the read of index 2 fails and leaves
    [Star] as the read of index 1 set it, and the loop goes on to draw that
    star a second time: the paint makes the calls for Polaris twice.  For
    every store, a round whose read fails draws the star that [Star] still
    holds whenever that star is within the limit. *)
Theorem failed_read_draws_previous_star :
  forall (auto_SL auto_S : Z -> buf) (right bottom : Z) (Star : STARDATA),
    let DsC := WM_CREATE DsC_initial in
    let st := WM_PAINT auto_SL auto_S (Some catalog_eof) right bottom DsC Star in
    let d := EQConvert (set_Stars (set_MaxX_MaxY DsC right bottom) 2)
               (number (chars "  37.954561")) (number (chars "  +89.264109")) in
    let symbol := Ellipse (DsC_CX d - 5) (DsC_CY d - 5) (DsC_CX d + 5) (DsC_CY d + 5) in
    let label := TextOut (DsC_CX d + 5) (DsC_CY d - 5) (chars "Polaris         ") in
    validate catalog_eof = DataFileOK 2 /\
    (forall Star0 : STARDATA,
       fst (GetStar_body auto_SL auto_S catalog_eof 2 Star0) = 1%Z /\
       GetStar auto_SL auto_S catalog_eof 2 Star0 = Star0) /\
    drawing st = [symbol; label; symbol; label] /\
    (forall (fp : store) (i : Z) (st0 : paint_state),
       fst (GetStar_body auto_SL auto_S fp i (p_Star st0)) = 1%Z ->
       Star_Mag (p_Star st0) <= DsC_Mag (p_DsC st0) ->
       exists (drawn : gdi_call) (rest : list gdi_call),
         draws drawn = true /\
         p_out (paint_star auto_SL auto_S fp i st0) =
         p_out st0 ++ SetBkMode OPAQUE :: drawn :: rest).
Proof.
  intros auto_SL auto_S right bottom Star DsC st d symbol label.
  split; [exact validate_catalog_eof|]. split.
  { intro Star0. split; [now rewrite GetStar_eof_record|apply GetStar_eof_2]. }
  split; [|intros fp i st0; apply paint_star_after_failed_read].
  subst st. rewrite WM_PAINT_two by exact validate_catalog_eof.
  rewrite paint_eof_round_1 by reflexivity.
  rewrite paint_eof_round_2 by reflexivity.
  rewrite EQConvert_again. reflexivity.
Qed.

(** ** A line that ends early *)

(** A read that delivers fewer characters than a record has is not a
    failure to [GetStar]: [fgets] returns the line, [error] stays 0, and
    the members behind the line are taken from what the array [SL] held
    before the call.  With a line of fewer than 17 characters the label is
    that line, RA, Dec and magnitude are numbers found in the old contents
    of [SL], and the loop draws a symbol for them when that magnitude is
    within the limit. *)
Theorem GetStar_short_line_not_detected :
  forall (auto_SL auto_S : Z -> buf) (fp : store) (index : Z)
         (rest line : list ascii) (Star : STARDATA),
    fseek_set fp (wrap_long ((index + 4) * streclen)) = Some rest ->
    fgets_chars 60 (text_read rest) = line ->
    (0 < length line < 17)%nat ->
    fst (GetStar_body auto_SL auto_S fp index Star) = 0%Z /\
    cstr (Star_Label (GetStar auto_SL auto_S fp index Star)) = cstr line /\
    Star_RA (GetStar auto_SL auto_S fp index Star) =
      number (cstr (field (auto_SL index) 17 11)) /\
    Star_Dec (GetStar auto_SL auto_S fp index Star) =
      number (cstr (field (auto_SL index) 28 12)) /\
    Star_Mag (GetStar auto_SL auto_S fp index Star) =
      number (cstr (field (auto_SL index) 40 5)) /\
    (forall st : paint_state,
       p_Star st = Star ->
       number (cstr (field (auto_SL index) 40 5)) <= DsC_Mag (p_DsC st) ->
       exists (drawn : gdi_call) (more : list gdi_call),
         draws drawn = true /\
         p_out (paint_star auto_SL auto_S fp index st) =
         p_out st ++ SetBkMode OPAQUE :: drawn :: more).
Proof.
  intros auto_SL auto_S fp index rest line Star Hs Hl Hn.
  assert (Hg : fgets (auto_SL index) streclen rest =
               Some (line ++ NUL :: skipn (S (length line)) (auto_SL index))).
  { unfold fgets. change (Z.to_nat (streclen - 1)) with 60%nat. rewrite Hl.
    destruct line; [cbn in Hn; lia|reflexivity]. }
  destruct (GetStar_body_any_line auto_SL auto_S fp index Star rest _ Hs Hg)
    as (Label & HL & HB).
  rewrite !field_behind_line in HB by lia.
  unfold GetStar. rewrite HB. cbn [fst snd Star_Label Star_RA Star_Dec Star_Mag].
  split; [reflexivity|]. split.
  { rewrite HL. unfold field. cbn [skipn]. apply cstr_firstn_line. lia. }
  do 3 (split; [reflexivity|]).
  intros st <- Hm. unfold paint_star, GetStar. rewrite HB.
  cbn [snd Star_Mag Star_RA Star_Dec Star_Label].
  destruct (Rle_dec _ _); [|contradiction].
  cbn [p_out app].
  destruct (Req_dec_T _ 1); eexists; eexists; (split; [|reflexivity]); reflexivity.
Qed.

Lemma number_stack_junk : number (cstr (field (stack_junk 2) 40 5)) = 0.
Proof.
  replace (cstr (field (stack_junk 2) 40 5)) with (chars "?????") by reflexivity.
  number_eval (chars "?????"). reflexivity.
Qed.

(** On [catalog_short], which passes the integrity check with 2 stars, the
    read of index 2 reports no error and stores a star labelled with the
    two characters of the line, of magnitude 0. *)
Lemma GetStar_short_line_not_detected_witness :
  validate catalog_short = DataFileOK 2 /\
  fst (GetStar_body stack_junk stack_junk catalog_short 2 Star_initial) = 0%Z /\
  cstr (Star_Label (GetStar stack_junk stack_junk catalog_short 2 Star_initial)) =
    [ "X"%char; LF ] /\
  Star_Mag (GetStar stack_junk stack_junk catalog_short 2 Star_initial) = 0.
Proof.
  split; [reflexivity|].
  destruct (GetStar_short_line_not_detected stack_junk stack_junk catalog_short 2
              short_record [ "X"%char; LF ] Star_initial)
    as (H1 & H2 & _ & _ & H5 & _).
  - reflexivity.
  - reflexivity.
  - cbn [length]. lia.
  - split; [exact H1|]. split; [exact H2|]. rewrite H5. exact number_stack_junk.
Defined.

(** ** Reads and paints in general *)

(** What text mode delivers is empty exactly at the end of the file and in
    front of a Ctrl-Z. *)
Lemma text_read_nil raw :
  text_read raw = [] <-> raw = [] \/ exists rest, raw = CTRLZ :: rest.
Proof.
  split.
  - destruct raw as [|c rest]; [now left|]. intro H. right.
    cbn [text_read] in H. destruct (Ascii.eqb c CTRLZ) eqn:E.
    + apply Ascii.eqb_eq in E. subst c. now exists rest.
    + exfalso. destruct rest as [|d r]; [discriminate|].
      destruct (Ascii.eqb c CR && Ascii.eqb d LF) eqn:E2; [|discriminate].
      apply andb_true_iff in E2 as [_ E2]. apply Ascii.eqb_eq in E2. subst d.
      cbn [text_read] in H. change (Ascii.eqb LF CTRLZ) with false in H.
      destruct r; [discriminate|]. change (Ascii.eqb LF CR) with false in H.
      cbn [andb] in H. discriminate.
  - intros [->|[rest ->]]; reflexivity.
Qed.

Lemma fgets_chars_nil k input :
  fgets_chars (S k) input = [] <-> input = [].
Proof.
  split; [|now intros ->].
  destruct input as [|c t]; [reflexivity|]. cbn [fgets_chars].
  destruct (Ascii.eqb c LF); discriminate.
Qed.

Lemma GetStar_body_error :
  forall (auto_SL auto_S : Z -> buf) (fp : store) (index : Z) (Star : STARDATA),
    let fspot := wrap_long ((index + 4) * streclen) in
    let error := fst (GetStar_body auto_SL auto_S fp index Star) in
    (error = 0%Z \/ error = 1%Z) /\
    (error = 1%Z <->
       (fspot < 0)%Z \/ (Z.of_nat (length fp) <= fspot)%Z \/
       nth (Z.to_nat fspot) fp NUL = CTRLZ).
Proof.
  intros auto_SL auto_S fp index Star fspot error. subst error.
  unfold GetStar_body. fold fspot. unfold fseek_set.
  destruct (Z.ltb_spec fspot 0) as [Hn|Hn].
  { cbn [fst]. split; [now right|]. split; [now left|reflexivity]. }
  unfold fgets. change (Z.to_nat (streclen - 1)) with 60%nat.
  set (rest := skipn (Z.to_nat fspot) fp).
  assert (Hrest : text_read rest = [] <->
            (Z.of_nat (length fp) <= fspot)%Z \/ nth (Z.to_nat fspot) fp NUL = CTRLZ).
  { rewrite text_read_nil. subst rest. split.
    - intros [H|[r H]].
      + left. apply (f_equal (@length ascii)) in H. rewrite length_skipn in H.
        cbn [length] in H. lia.
      + destruct (Z.le_gt_cases (Z.of_nat (length fp)) fspot) as [L|L]; [now left|].
        right. rewrite <- (firstn_skipn (Z.to_nat fspot) fp) at 1.
        rewrite app_nth2 by (rewrite length_firstn; lia).
        rewrite length_firstn, H.
        replace (Z.to_nat fspot - Nat.min (Z.to_nat fspot) (length fp))%nat with 0%nat by lia.
        reflexivity.
    - intros [H|H].
      + left. apply skipn_all2. lia.
      + destruct (skipn (Z.to_nat fspot) fp) as [|c r] eqn:E; [now left|].
        right. exists r. f_equal.
        rewrite <- (firstn_skipn (Z.to_nat fspot) fp), E in H.
        assert (L : (Z.to_nat fspot < length fp)%nat).
        { apply (f_equal (@length ascii)) in E. rewrite length_skipn in E.
          cbn [length] in E. lia. }
        rewrite app_nth2 in H by (rewrite length_firstn; lia).
        rewrite length_firstn in H.
        replace (Z.to_nat fspot - Nat.min (Z.to_nat fspot) (length fp))%nat with 0%nat in H by lia.
        exact H. }
  destruct (fgets_chars 60 (text_read rest)) as [|c l] eqn:E.
  - cbn [fst]. split; [now right|]. split; [|reflexivity].
    intros _. right. apply Hrest. now apply fgets_chars_nil in E.
  - cbv zeta. cbn [fst]. split; [now left|]. split; [discriminate|].
    intros [H|H]; [lia|]. apply Hrest in H. rewrite H in E. discriminate.
Qed.

(** Which reads fail.  [GetStar] ends with [error] 0 or 1, and with 1
    exactly when the offset [(index + 4) * streclen], as a [long], is
    negative, lies at or behind the end of the file, or is the place of a
    Ctrl-Z, where text mode ends the file.  Every other read succeeds,
    whatever the record holds and however short the line is. *)
Theorem GetStar_fails_exactly_when :
  forall (auto_SL auto_S : Z -> buf) (fp : store) (index : Z) (Star : STARDATA),
    let fspot := wrap_long ((index + 4) * streclen) in
    let error := fst (GetStar_body auto_SL auto_S fp index Star) in
    (error = 0%Z \/ error = 1%Z) /\
    (error = 1%Z <->
       (fspot < 0)%Z \/ (Z.of_nat (length fp) <= fspot)%Z \/
       nth (Z.to_nat fspot) fp NUL = CTRLZ).
Proof. exact GetStar_body_error. Qed.




Lemma GetStar_body_CRLF auto_SL auto_S fp index Star data rest :
  (0 <= (index + 4) * streclen < 2 ^ 31)%Z ->
  from_record fp index = data ++ CR :: LF :: rest ->
  length data = 59%nat ->
  forallb plain data = true ->
  GetStar_body auto_SL auto_S fp index Star =
    (0%Z,
     mkSTARDATA (field data 0 16 ++ NUL :: skipn 17 (Star_Label Star))
       (number (field data 17 11)) (number (field data 28 12))
       (number (field data 40 5)) (field data 45 2) (number (field data 47 9))
       (number (field data 56 3 ++ [LF]))).
Proof.
  intros Hi Hr Hl Hp.
  rewrite (GetStar_body_line auto_SL auto_S fp index Star
             (firstn 56 data) (skipn 56 data ++ CR :: LF :: rest)).
  - rewrite !field_firstn by lia. do 2 f_equal.
    assert (P3 : forallb plain (skipn 56 data) = true) by now apply forallb_skipn.
    assert (L3 : length (skipn 56 data) = 3%nat) by (rewrite length_skipn; lia).
    rewrite text_read_plain by exact P3.
    replace (text_read (CR :: LF :: rest)) with (LF :: text_read rest).
    2:{ cbn [text_read]. change (Ascii.eqb CR CTRLZ) with false.
        change (Ascii.eqb CR CR && Ascii.eqb LF LF) with true. cbn match.
        change (Ascii.eqb LF CTRLZ) with false. cbn match.
        destruct rest; [reflexivity|].
        change (Ascii.eqb LF CR) with false. reflexivity. }
    pose proof (fgets_chars_plain (skipn 56 data) 1 (LF :: text_read rest) P3) as F.
    rewrite L3 in F. change (3 + 1)%nat with 4%nat in F. rewrite F. clear F.
    cbn [fgets_chars]. change (Ascii.eqb LF LF) with true. cbn match.
    rewrite cstr_nonnul.
    + unfold field. rewrite firstn_all2 by lia. reflexivity.
    + rewrite forallb_app. rewrite (plain_nonnul _ P3). reflexivity.
  - exact Hi.
  - rewrite Hr. rewrite <- (firstn_skipn 56 data) at 1. now rewrite <- app_assoc.
  - rewrite length_firstn. lia.
  - now apply forallb_firstn.
Qed.

(** A record of 59 plain bytes that ends with CR LF.  Text mode delivers
    the line break as one newline, so [fgets] stores the 59 bytes and the
    newline, and the members come from the 59 bytes: the label from bytes
    0-15, the numbers and the class from their ranges, and the proper motion
    in Dec from bytes 56-58 followed by the newline. *)
Theorem GetStar_CRLF_record :
  forall (auto_SL auto_S : Z -> buf) (fp : store) (index : Z) (Star : STARDATA)
         (data rest : list ascii),
    (0 <= (index + 4) * streclen < 2 ^ 31)%Z ->
    from_record fp index = data ++ CR :: LF :: rest ->
    length data = 59%nat ->
    forallb plain data = true ->
    let Star' := GetStar auto_SL auto_S fp index Star in
    fst (GetStar_body auto_SL auto_S fp index Star) = 0%Z /\
    cstr (Star_Label Star') = field data 0 16 /\
    Star_RA Star' = number (field data 17 11) /\
    Star_Dec Star' = number (field data 28 12) /\
    Star_Mag Star' = number (field data 40 5) /\
    Star_Class Star' = field data 45 2 /\
    Star_PMRA Star' = number (field data 47 9) /\
    Star_PMDec Star' = number (field data 56 3 ++ [LF]).
Proof.
  intros auto_SL auto_S fp index Star data rest Hi Hr Hl Hp Star'. subst Star'.
  unfold GetStar. rewrite (GetStar_body_CRLF _ _ _ _ _ data rest) by assumption.
  cbn [fst snd Star_Label Star_RA Star_Dec Star_Mag Star_Class Star_PMRA Star_PMDec].
  split; [reflexivity|]. split; [|repeat split].
  apply cstr_terminated. apply plain_nonnul. now apply forallb_field.
Qed.

Lemma number_Vega_PMDec : number (chars "286" ++ [LF]) = 286.
Proof.
  change (chars "286" ++ [LF]) with (chars "286" ++ [LF])%list.
  set (t := (chars "286" ++ [LF])%list).
  unfold number.
  replace (atof_dec t) with (286%Z, 0%Z) by (vm_compute; reflexivity).
  reflexivity.
Qed.

Lemma GetStar_CRLF_record_witness :
  let Star' := GetStar stack_junk stack_junk (header ++ Vega_record) 1 Star_initial in
  cstr (Star_Label Star') = chars "Vega            " /\
  Star_Class Star' = chars "A0" /\
  Star_PMDec Star' = 286.
Proof.
  destruct (GetStar_CRLF_record stack_junk stack_junk (header ++ Vega_record) 1
              Star_initial (firstn 59 Vega_record) [])
    as (_ & H1 & _ & _ & _ & H5 & _ & H7).
  - unfold streclen; lia.
  - reflexivity.
  - reflexivity.
  - reflexivity.
  - cbv zeta. split; [exact H1|]. split; [exact H5|].
    rewrite H7. exact number_Vega_PMDec.
Defined.

(** ** [Star.Class] *)

(** [sprintf(Star.Class, "%s", S)] stores the two characters of the
    class and the terminator: 3 bytes at the array [Class], which has 2.
    This holds for every star of a checked store whose record has its first
    56 bytes plain. *)
Theorem Class_stored_past_array :
  forall (auto_SL auto_S : Z -> buf) (fp : store) (Stars index : Z) (Star : STARDATA),
    validate fp = DataFileOK Stars ->
    (Z.of_nat (length fp) < 2 ^ 31)%Z ->
    (1 <= index <= Stars)%Z ->
    forallb plain (firstn 56 (from_record fp index)) = true ->
    let Star' := GetStar auto_SL auto_S fp index Star in
    Class_stored Star' = field (from_record fp index) 45 2 ++ [NUL] /\
    length (Class_stored Star') = 3%nat /\
    (sizeof_Class < length (Class_stored Star'))%nat.
Proof.
  intros auto_SL auto_S fp Stars index Star Hv Hl Hi Hp Star'. subst Star'.
  unfold GetStar, Class_stored.
  rewrite (GetStar_checked_record auto_SL auto_S fp Stars index Star Hv Hl Hi Hp).
  cbn [snd Star_Class].
  destruct (validate_record fp Stars index Hv Hi) as (_ & _ & H61).
  assert (L : length (field (from_record fp index) 45 2) = 2%nat)
    by (apply length_field; lia).
  split; [reflexivity|]. rewrite length_app, L. cbn. unfold sizeof_Class. lia.
Qed.

Lemma Class_stored_past_array_witness :
  Class_stored (GetStar stack_junk stack_junk catalog 1 Star_initial) =
    chars "F7" ++ [NUL].
Proof.
  destruct (Class_stored_past_array stack_junk stack_junk catalog 2 1 Star_initial)
    as (H & _).
  - reflexivity.
  - cbn. lia.
  - lia.
  - reflexivity.
  - exact H.
Defined.

(** ** A blank field *)






(** ** The loop *)

Section Loop_facts.

Variables auto_SL auto_S : Z -> buf.
Variable fp : store.

(** A property that every round keeps holds after the loop. *)
Lemma star_loop_invariant (P : paint_state -> Prop) :
  (forall i st, P st -> P (paint_star auto_SL auto_S fp i st)) ->
  forall n i st, P st -> P (star_loop auto_SL auto_S fp n i st).
Proof.
  intros Hstep. induction n as [|n IH]; intros i st H; [exact H|].
  cbn [star_loop]. apply IH. now apply Hstep.
Qed.

(** The same for a property of the rounds [first .. first + n - 1]. *)
Lemma star_loop_invariant_from (P : paint_state -> Prop) (last : Z) :
  (forall i st, (1 <= i <= last)%Z -> P st -> P (paint_star auto_SL auto_S fp i st)) ->
  forall n i st, (1 <= i)%Z -> (i + Z.of_nat n - 1 <= last)%Z ->
    P st -> P (star_loop auto_SL auto_S fp n i st).
Proof.
  intros Hstep. induction n as [|n IH]; intros i st H1 H2 H; [exact H|].
  cbn [star_loop]. apply IH; [lia|lia|]. apply Hstep; [lia|exact H].
Qed.

Lemma set_CX_CY_same d : set_CX_CY d (DsC_CX d) (DsC_CY d) = d.
Proof. now destruct d. Qed.

Lemma set_CX_CY_twice d X Y X' Y' :
  set_CX_CY (set_CX_CY d X Y) X' Y' = set_CX_CY d X' Y'.
Proof. reflexivity. Qed.

Lemma paint_star_DsC i st :
  exists X Y : Z, p_DsC (paint_star auto_SL auto_S fp i st) = set_CX_CY (p_DsC st) X Y.
Proof.
  unfold paint_star. destruct (Rle_dec _ _).
  - cbn [p_DsC]. unfold EQConvert. eexists. eexists. reflexivity.
  - cbn [p_DsC]. exists (DsC_CX (p_DsC st)), (DsC_CY (p_DsC st)).
    symmetry. apply set_CX_CY_same.
Qed.

Lemma star_loop_DsC n i st :
  exists X Y : Z, p_DsC (star_loop auto_SL auto_S fp n i st) = set_CX_CY (p_DsC st) X Y.
Proof.
  apply (star_loop_invariant
           (fun st' => exists X Y : Z, p_DsC st' = set_CX_CY (p_DsC st) X Y)).
  - intros j st' (X & Y & H). destruct (paint_star_DsC j st') as (X' & Y' & H').
    exists X', Y'. rewrite H', H. apply set_CX_CY_twice.
  - exists (DsC_CX (p_DsC st)), (DsC_CY (p_DsC st)). symmetry. apply set_CX_CY_same.
Qed.

End Loop_facts.

Lemma WM_PAINT_DsC :
  forall (auto_SL auto_S : Z -> buf) (file : option store) (right bottom : Z)
         (DsC : DSCONTROL) (Star : STARDATA),
    let DsC' := p_DsC (WM_PAINT auto_SL auto_S file right bottom DsC Star) in
    (file = None -> DsC' = set_MaxX_MaxY DsC right bottom) /\
    (forall fp, file = Some fp -> validate fp = DataFileError ->
       DsC' = set_MaxX_MaxY DsC right bottom) /\
    (forall fp Stars, file = Some fp -> validate fp = DataFileOK Stars ->
       exists X Y : Z,
         DsC' = set_CX_CY (set_Stars (set_MaxX_MaxY DsC right bottom) Stars) X Y) /\
    DsC_RA DsC' = DsC_RA DsC /\ DsC_Dec DsC' = DsC_Dec DsC /\
    DsC_FOV DsC' = DsC_FOV DsC /\ DsC_Mag DsC' = DsC_Mag DsC /\
    DsC_ROT DsC' = DsC_ROT DsC /\
    DsC_MaxX DsC' = right /\ DsC_MaxY DsC' = bottom.
Proof.
  intros auto_SL auto_S file right bottom DsC Star DsC'.
  assert (A : file = None -> DsC' = set_MaxX_MaxY DsC right bottom).
  { intros ->. reflexivity. }
  assert (B : forall fp, file = Some fp -> validate fp = DataFileError ->
                DsC' = set_MaxX_MaxY DsC right bottom).
  { intros fp -> H. subst DsC'. unfold WM_PAINT. unfold validate in H. now rewrite H. }
  assert (C : forall fp Stars, file = Some fp -> validate fp = DataFileOK Stars ->
       exists X Y : Z,
         DsC' = set_CX_CY (set_Stars (set_MaxX_MaxY DsC right bottom) Stars) X Y).
  { intros fp Stars -> H. subst DsC'. unfold WM_PAINT. unfold validate in H. rewrite H.
    apply star_loop_DsC. }
  split; [exact A|]. split; [exact B|]. split; [exact C|].
  destruct file as [fp|].
  - destruct (validate fp) as [|Stars] eqn:E.
    + rewrite (B fp eq_refl E). now destruct DsC.
    + destruct (C fp Stars eq_refl E) as (X & Y & ->). now destruct DsC.
  - rewrite (A eq_refl). now destruct DsC.
Qed.


(** ** A file without star records *)

(** A file of at most five records, the empty file among them, passes
    the integrity check: its length is a multiple of 61.  [Stars] becomes
    [k - 5], which is not positive, the loop does not run, no message is
    shown and nothing is drawn; [Star] stays as it was. *)
Theorem WM_PAINT_no_star_records :
  forall (auto_SL auto_S : Z -> buf) (fp : store) (k : nat) (right bottom : Z)
         (DsC : DSCONTROL) (Star : STARDATA),
    length fp = (61 * k)%nat ->
    (k <= 5)%nat ->
    validate fp = DataFileOK (Z.of_nat k - 5) /\
    WM_PAINT auto_SL auto_S (Some fp) right bottom DsC Star =
      mkPaint Star (set_Stars (set_MaxX_MaxY DsC right bottom) (Z.of_nat k - 5))
        [SetBkMode OPAQUE].
Proof.
  intros auto_SL auto_S fp k right bottom DsC Star Hl Hk.
  assert (V : validate fp = DataFileOK (Z.of_nat k - 5)).
  { unfold validate, ftell_end.
    destruct (check_integrity_spec (Z.of_nat (length fp))) as [_ H]; [lia|].
    assert (E : Z.of_nat (length fp) = (Z.of_nat k * 61)%Z) by lia.
    rewrite E in *. rewrite H by (apply Z.mod_mul; lia).
    now rewrite Z.div_mul by lia. }
  split; [exact V|].
  unfold WM_PAINT. unfold validate in V. rewrite V. cbn [set_Stars DsC_Stars].
  replace (Z.to_nat (Z.of_nat k - 5)) with 0%nat by lia. reflexivity.
Qed.

Lemma WM_PAINT_no_star_records_witness :
  WM_PAINT stack_junk stack_junk (Some []) 640 480 (WM_CREATE DsC_initial) Star_initial =
  mkPaint Star_initial
    (set_Stars (set_MaxX_MaxY (WM_CREATE DsC_initial) 640 480) (-5)) [SetBkMode OPAQUE].
Proof.
  apply (WM_PAINT_no_star_records stack_junk stack_junk [] 0 640 480
           (WM_CREATE DsC_initial) Star_initial); [reflexivity|lia].
Defined.

(** ** Labels *)

Section Label_facts.

Variables auto_SL auto_S : Z -> buf.
Variable fp : store.

(** The string in [Star.Label] after [GetStar]: at most 16 characters, when
    that held before the call. *)
Lemma GetStar_Label_length index Star :
  (length (cstr (Star_Label Star)) <= 16)%nat ->
  (length (cstr (Star_Label (GetStar auto_SL auto_S fp index Star))) <= 16)%nat.
Proof.
  intro H. unfold GetStar.
  destruct (fseek_set fp (wrap_long ((index + 4) * streclen))) as [rest|] eqn:Es.
  - destruct (fgets (auto_SL index) streclen rest) as [SL|] eqn:Eg.
    + destruct (GetStar_body_any_line auto_SL auto_S fp index Star rest SL Es Eg)
        as (Label & HL & HB).
      rewrite HB. cbn [snd Star_Label]. rewrite HL.
      etransitivity; [apply length_cstr|]. unfold field. rewrite length_firstn. lia.
    + unfold GetStar_body. rewrite Es, Eg. exact H.
  - unfold GetStar_body. rewrite Es. exact H.
Qed.

Lemma paint_star_Label i st :
  (length (cstr (Star_Label (p_Star st))) <= 16)%nat /\ texts_within 16 (p_out st) ->
  (length (cstr (Star_Label (p_Star (paint_star auto_SL auto_S fp i st)))) <= 16)%nat /\
  texts_within 16 (p_out (paint_star auto_SL auto_S fp i st)).
Proof.
  intros [HL HT].
  pose proof (GetStar_Label_length i (p_Star st) HL) as G.
  unfold paint_star. destruct (Rle_dec _ _); cbn [p_Star p_out]; (split; [exact G|]);
    [|exact HT].
  intros X Y text Hin. apply in_app_or in Hin as [Hin|Hin]; [now apply (HT X Y)|].
  cbn [app In] in Hin. destruct Hin as [Hin|[Hin|Hin]]; [discriminate| |].
  - destruct (Req_dec_T _ 1); discriminate.
  - destruct (Rlt_dec _ _); cbn [In] in Hin; [|contradiction].
    destruct Hin as [Hin|[Hin|[]]]; [discriminate|].
    injection Hin as _ _ <-. exact G.
Qed.

End Label_facts.

(** The label in [Star.Label] is a string of at most 16 characters
    after every paint when it was one before, as it is at program start, and
    every text that a paint gives to [TextOut] has at most 16 characters: the
    copy to [buffer], which has 80 bytes, stays inside it.  This holds for
    every file, readable or not. *)
Theorem TextOut_at_most_16_characters :
  forall (auto_SL auto_S : Z -> buf) (file : option store) (right bottom : Z)
         (DsC : DSCONTROL) (Star : STARDATA),
    (length (cstr (Star_Label Star)) <= 16)%nat ->
    let st := WM_PAINT auto_SL auto_S file right bottom DsC Star in
    (forall (X Y : Z) (text : list ascii),
       In (TextOut X Y text) (p_out st) -> (length text <= 16)%nat) /\
    (length (cstr (Star_Label (p_Star st))) <= 16)%nat.
Proof.
  intros auto_SL auto_S file right bottom DsC Star H st.
  assert (T0 : forall text out, texts_within 16 ([SetBkMode OPAQUE] ++ [MessageBox text out])).
  { intros text out X Y t Hin. cbn in Hin. destruct Hin as [?|[?|[]]]; discriminate. }
  assert (G : (length (cstr (Star_Label (p_Star st))) <= 16)%nat /\ texts_within 16 (p_out st)).
  { subst st. unfold WM_PAINT. destruct file as [fp|]; [|split; [exact H|apply T0]].
    destruct (check_integrity (ftell_end fp)); [split; [exact H|apply T0]|].
    apply (star_loop_invariant auto_SL auto_S fp
             (fun st => (length (cstr (Star_Label (p_Star st))) <= 16)%nat /\
                        texts_within 16 (p_out st))).
    - intros i st. apply paint_star_Label.
    - split; [exact H|]. intros X Y t Hin. cbn in Hin. destruct Hin as [?|[]]; discriminate. }
  split; [exact (proj2 G)|exact (proj1 G)].
Qed.

Lemma TextOut_at_most_16_characters_witness :
  (length (cstr (Star_Label
     (p_Star (WM_PAINT stack_junk stack_junk (Some catalog) 640 480
                (WM_CREATE DsC_initial) Star_initial)))) <= 16)%nat.
Proof.
  apply (TextOut_at_most_16_characters stack_junk stack_junk (Some catalog) 640 480
           (WM_CREATE DsC_initial) Star_initial).
  cbn. lia.
Defined.

(** ** The number of calls *)

Lemma drawing_app st out :
  filter draws (p_out st ++ out) = (drawing st ++ filter draws out)%list.
Proof. unfold drawing. apply filter_app. Qed.

Lemma paint_star_drawing auto_SL auto_S fp i st :
  (length (drawing (paint_star auto_SL auto_S fp i st)) <= length (drawing st) + 2)%nat.
Proof.
  unfold paint_star. destruct (Rle_dec _ _); [|unfold drawing; cbn [p_out]; lia].
  unfold drawing at 1. cbn [p_out]. rewrite drawing_app, length_app.
  destruct (Req_dec_T _ 1); destruct (Rlt_dec _ _); cbn; lia.
Qed.

Lemma star_loop_drawing auto_SL auto_S fp : forall n i st,
  (length (drawing (star_loop auto_SL auto_S fp n i st)) <= length (drawing st) + 2 * n)%nat.
Proof.
  induction n as [|n IH]; intros i st; [cbn [star_loop]; lia|].
  cbn [star_loop]. etransitivity; [apply IH|].
  pose proof (paint_star_drawing auto_SL auto_S fp i st). lia.
Qed.

(** A paint of a file that passes the integrity check makes at most two
    drawing calls for each star: its symbol and its label. *)
Theorem drawing_at_most_two_per_star :
  forall (auto_SL auto_S : Z -> buf) (fp : store) (Stars : Z) (right bottom : Z)
         (DsC : DSCONTROL) (Star : STARDATA),
    validate fp = DataFileOK Stars ->
    (length (drawing (WM_PAINT auto_SL auto_S (Some fp) right bottom DsC Star))
     <= 2 * Z.to_nat Stars)%nat.
Proof.
  intros auto_SL auto_S fp Stars right bottom DsC Star Hv.
  unfold WM_PAINT. unfold validate in Hv. rewrite Hv. cbn [set_Stars DsC_Stars].
  etransitivity; [apply star_loop_drawing|]. cbn. lia.
Qed.

Lemma drawing_at_most_two_per_star_witness :
  (length (drawing (WM_PAINT stack_junk stack_junk (Some catalog) 640 480
                      (WM_CREATE DsC_initial) Star_initial)) <= 2 * Z.to_nat 2)%nat.
Proof.
  apply (drawing_at_most_two_per_star stack_junk stack_junk catalog 2 640 480
           (WM_CREATE DsC_initial) Star_initial).
  reflexivity.
Defined.

(** ** Stack contents and the star of the paint before *)

Lemma EQConvert_same_view d1 d2 RA Dec :
  same_view d1 d2 ->
  DsC_CX (EQConvert d1 RA Dec) = DsC_CX (EQConvert d2 RA Dec) /\
  DsC_CY (EQConvert d1 RA Dec) = DsC_CY (EQConvert d2 RA Dec) /\
  same_view (EQConvert d1 RA Dec) (EQConvert d2 RA Dec).
Proof.
  destruct d1, d2. unfold same_view. cbn.
  intros (-> & -> & -> & -> & -> & -> & ->).
  repeat split.
Qed.

Section Readable.

Variable fp : store.
Variable Stars : Z.
Hypothesis Hv : validate fp = DataFileOK Stars.
Hypothesis Hlen : (Z.of_nat (length fp) < 2 ^ 31)%Z.
Hypothesis Hplain : forall index : Z, (1 <= index <= Stars)%Z ->
  forallb plain (firstn 56 (from_record fp index)) = true.

Lemma paint_star_readable a1 s1 a2 s2 i st1 st2 :
  (1 <= i <= Stars)%Z ->
  same_view (p_DsC st1) (p_DsC st2) /\ p_out st1 = p_out st2 ->
  same_view (p_DsC (paint_star a1 s1 fp i st1)) (p_DsC (paint_star a2 s2 fp i st2)) /\
  p_out (paint_star a1 s1 fp i st1) = p_out (paint_star a2 s2 fp i st2).
Proof.
  intros Hi [Hd Ho]. unfold paint_star, GetStar.
  rewrite (GetStar_checked_record a1 s1 fp Stars i (p_Star st1) Hv Hlen Hi (Hplain i Hi)).
  rewrite (GetStar_checked_record a2 s2 fp Stars i (p_Star st2) Hv Hlen Hi (Hplain i Hi)).
  cbn [snd Star_Mag Star_RA Star_Dec Star_Label].
  rewrite !cstr_app_NUL.
  set (RA := number (field (from_record fp i) 17 11)).
  set (Dec := number (field (from_record fp i) 28 12)).
  set (Mag := number (field (from_record fp i) 40 5)).
  destruct (EQConvert_same_view _ _ RA Dec Hd) as (HX & HY & HV).
  pose proof Hd as (_ & _ & _ & HM & _).
  rewrite !EQConvert_keeps_Mag. rewrite <- HM.
  destruct (Rle_dec Mag (DsC_Mag (p_DsC st1))); cbn [p_DsC p_out]; [|now split].
  split; [exact HV|]. now rewrite Ho, HX, HY.
Qed.

Lemma star_loop_readable a1 s1 a2 s2 : forall n i st1 st2,
  (1 <= i)%Z -> (i + Z.of_nat n - 1 <= Stars)%Z ->
  same_view (p_DsC st1) (p_DsC st2) /\ p_out st1 = p_out st2 ->
  p_out (star_loop a1 s1 fp n i st1) = p_out (star_loop a2 s2 fp n i st2).
Proof.
  induction n as [|n IH]; intros i st1 st2 H1 H2 H; [exact (proj2 H)|].
  cbn [star_loop]. apply IH; [lia|lia|]. apply paint_star_readable; [lia|exact H].
Qed.

End Readable.

(** When every record of a checked store has its first 56 bytes plain,
    the calls of a paint depend on the file, the client rectangle and the
    view (RA, Dec, FOV, Mag, ROT) only: not on what the stack holds in [SL]
    and [S], not on the star left in [Star], and not on the other members of
    [DsC].  So a second paint after the first makes the same calls. *)
Theorem paint_of_readable_store_repeatable :
  forall (fp : store) (Stars : Z),
    validate fp = DataFileOK Stars ->
    (Z.of_nat (length fp) < 2 ^ 31)%Z ->
    (forall index : Z, (1 <= index <= Stars)%Z ->
       forallb plain (firstn 56 (from_record fp index)) = true) ->
    forall (a1 s1 a2 s2 : Z -> buf) (right bottom : Z) (d1 d2 : DSCONTROL)
           (Star1 Star2 : STARDATA),
      DsC_RA d1 = DsC_RA d2 -> DsC_Dec d1 = DsC_Dec d2 -> DsC_FOV d1 = DsC_FOV d2 ->
      DsC_Mag d1 = DsC_Mag d2 -> DsC_ROT d1 = DsC_ROT d2 ->
      p_out (WM_PAINT a1 s1 (Some fp) right bottom d1 Star1) =
      p_out (WM_PAINT a2 s2 (Some fp) right bottom d2 Star2) /\
      p_out (WM_PAINT a2 s2 (Some fp) right bottom
               (p_DsC (WM_PAINT a1 s1 (Some fp) right bottom d1 Star1))
               (p_Star (WM_PAINT a1 s1 (Some fp) right bottom d1 Star1))) =
      p_out (WM_PAINT a1 s1 (Some fp) right bottom d1 Star1).
Proof.
  intros fp Stars Hv Hlen Hplain.
  assert (G : forall a1 s1 a2 s2 right bottom d1 d2 Star1 Star2,
      DsC_RA d1 = DsC_RA d2 -> DsC_Dec d1 = DsC_Dec d2 -> DsC_FOV d1 = DsC_FOV d2 ->
      DsC_Mag d1 = DsC_Mag d2 -> DsC_ROT d1 = DsC_ROT d2 ->
      p_out (WM_PAINT a1 s1 (Some fp) right bottom d1 Star1) =
      p_out (WM_PAINT a2 s2 (Some fp) right bottom d2 Star2)).
  { intros a1 s1 a2 s2 right bottom d1 d2 Star1 Star2 E1 E2 E3 E4 E5.
    unfold WM_PAINT. pose proof Hv as Hv'. unfold validate in Hv'. rewrite Hv'.
    cbn [set_Stars DsC_Stars].
    destruct (Z.le_gt_cases Stars 0) as [L|L].
    { replace (Z.to_nat Stars) with 0%nat by lia. reflexivity. }
    apply (star_loop_readable fp Stars Hv Hlen Hplain); [lia|lia|].
    cbn [p_DsC p_out]. split; [|reflexivity].
    destruct d1, d2. unfold same_view. cbn in *. now repeat split. }
  intros a1 s1 a2 s2 right bottom d1 d2 Star1 Star2 E1 E2 E3 E4 E5.
  split; [now apply G|].
  destruct (WM_PAINT_DsC a1 s1 (Some fp) right bottom d1 Star1)
    as (_ & _ & _ & F1 & F2 & F3 & F4 & F5 & _).
  now apply G.
Qed.

Lemma paint_of_readable_store_repeatable_witness :
  p_out (WM_PAINT stack_junk stack_junk (Some catalog) 640 480
           (WM_CREATE DsC_initial) Star_initial) =
  p_out (WM_PAINT (fun _ => repeat NUL 80) (fun _ => repeat NUL 80) (Some catalog) 640 480
           (WM_CREATE DsC_initial) (Polaris [])).
Proof.
  assert (V : validate catalog = DataFileOK 2) by reflexivity.
  assert (L : (Z.of_nat (length catalog) < 2 ^ 31)%Z) by (cbn; lia).
  assert (P : forall index : Z, (1 <= index <= 2)%Z ->
            forallb plain (firstn 56 (from_record catalog index)) = true).
  { intros index H. assert (E : index = 1%Z \/ index = 2%Z) by lia.
    destruct E as [-> | ->]; reflexivity. }
  exact (proj1 (paint_of_readable_store_repeatable catalog 2 V L P
                  stack_junk stack_junk (fun _ => repeat NUL 80) (fun _ => repeat NUL 80)
                  640 480 (WM_CREATE DsC_initial) (WM_CREATE DsC_initial)
                  Star_initial (Polaris []) eq_refl eq_refl eq_refl eq_refl eq_refl)).
Defined.

(** ** The symbol *)

Lemma sz_bounds limit mag : 1 <= sz limit mag <= 8.
Proof.
  unfold sz. destruct (Rle_dec limit 15);
    match goal with |- context [Rlt_dec ?r 1] => destruct (Rlt_dec r 1) end;
    match goal with |- context [Rlt_dec 8 ?r] => destruct (Rlt_dec 8 r) end; lra.
Qed.

(** The symbol size does not grow with the magnitude of the star and does
    not shrink with the limiting magnitude; above a limit of 15 it does not
    depend on the limit; and the radius [(int) sz] of the symbol is an
    integer from 1 to 8. *)
Theorem sz_monotone :
  (forall limit mag1 mag2 : R, mag1 <= mag2 -> sz limit mag2 <= sz limit mag1) /\
  (forall limit1 limit2 mag : R, limit1 <= limit2 -> sz limit1 mag <= sz limit2 mag) /\
  (forall limit mag : R, 15 < limit -> sz limit mag = sz 15 mag) /\
  (forall limit mag : R, (1 <= int_of_double (sz limit mag) <= 8)%Z).
Proof.
  split; [|split; [|split]].
  - intros limit mag1 mag2 H. unfold sz. destruct (Rle_dec limit 15);
      repeat match goal with |- context [Rlt_dec ?r 1] => destruct (Rlt_dec r 1) end;
      repeat match goal with |- context [Rlt_dec 8 ?r] => destruct (Rlt_dec 8 r) end;
      lra.
  - intros limit1 limit2 mag H. unfold sz.
    destruct (Rle_dec limit1 15); destruct (Rle_dec limit2 15);
      repeat match goal with |- context [Rlt_dec ?r 1] => destruct (Rlt_dec r 1) end;
      repeat match goal with |- context [Rlt_dec 8 ?r] => destruct (Rlt_dec 8 r) end;
      lra.
  - intros limit mag H. unfold sz.
    destruct (Rle_dec limit 15); [lra|]. destruct (Rle_dec 15 15); [reflexivity|lra].
  - intros limit mag. pose proof (sz_bounds limit mag) as [L U].
    destruct (int_of_double_trunc (sz limit mag)) as [H _].
    assert (P : 0 <= sz limit mag) by lra. specialize (H P).
    split.
    + assert (A : (0 < int_of_double (sz limit mag))%Z) by (apply lt_IZR; lra). lia.
    + apply le_IZR. lra.
Qed.

(** A star that gets its label is drawn as an ellipse of radius 3 at least,
    never as a pixel, when the limiting magnitude is 15 at most: the label
    is drawn for [Star.Mag < DsC.Mag - 3.0], where the size exceeds 3.5. *)
Theorem labelled_star_is_an_ellipse :
  forall (auto_SL auto_S : Z -> buf) (fp : store) (i : Z) (st : paint_state),
    let Star := GetStar auto_SL auto_S fp i (p_Star st) in
    let DsC := EQConvert (p_DsC st) (Star_RA Star) (Star_Dec Star) in
    DsC_Mag (p_DsC st) <= 15 ->
    Star_Mag Star < DsC_Mag (p_DsC st) - 3 ->
    exists r : Z,
      (3 <= r <= 8)%Z /\
      p_out (paint_star auto_SL auto_S fp i st) =
      (p_out st ++
       [SetBkMode OPAQUE;
        Ellipse (DsC_CX DsC - r) (DsC_CY DsC - r) (DsC_CX DsC + r) (DsC_CY DsC + r);
        SetBkMode TRANSPARENT;
        TextOut (DsC_CX DsC + r) (DsC_CY DsC - r) (cstr (Star_Label Star))])%list.
Proof.
  intros auto_SL auto_S fp i st Star DsC HL HM.
  set (s := sz (DsC_Mag (p_DsC st)) (Star_Mag Star)).
  assert (S35 : 3.5 < s).
  { unfold s, sz. destruct (Rle_dec (DsC_Mag (p_DsC st)) 15); [|lra].
    repeat match goal with |- context [Rlt_dec ?r 1] => destruct (Rlt_dec r 1) end;
    repeat match goal with |- context [Rlt_dec 8 ?r] => destruct (Rlt_dec 8 r) end;
    lra. }
  pose proof (sz_bounds (DsC_Mag (p_DsC st)) (Star_Mag Star)) as [_ S8]. fold s in S8.
  exists (int_of_double s). split.
  - destruct (int_of_double_trunc s) as [H _].
    assert (P : 0 <= s) by lra. specialize (H P). split.
    + assert (A : (2 < int_of_double s)%Z) by (apply lt_IZR; lra). lia.
    + apply le_IZR. lra.
  - unfold paint_star. fold Star. fold DsC.
    replace (DsC_Mag DsC) with (DsC_Mag (p_DsC st)) by reflexivity. fold s.
    destruct (Rle_dec (Star_Mag Star) (DsC_Mag (p_DsC st))); [|lra].
    destruct (Req_dec_T s 1); [lra|].
    destruct (Rlt_dec (Star_Mag Star) (DsC_Mag (p_DsC st) - 3)); [|lra].
    reflexivity.
Qed.

Lemma labelled_star_is_an_ellipse_witness :
  exists r : Z,
    (3 <= r <= 8)%Z /\
    exists X Y : Z,
      p_out (paint_star stack_junk stack_junk catalog 1
               (mkPaint Star_initial (WM_CREATE DsC_initial) [])) =
      [SetBkMode OPAQUE; Ellipse (X - r) (Y - r) (X + r) (Y + r);
       SetBkMode TRANSPARENT; TextOut (X + r) (Y - r) (chars "Polaris         ")].
Proof.
  assert (G : GetStar stack_junk stack_junk catalog 1 Star_initial =
              Polaris (Star_Label Star_initial)).
  { unfold GetStar.
    rewrite (GetStar_Polaris stack_junk stack_junk catalog 1 Star_initial faint_record);
      [reflexivity|unfold streclen; lia|reflexivity]. }
  destruct (labelled_star_is_an_ellipse stack_junk stack_junk catalog 1
              (mkPaint Star_initial (WM_CREATE DsC_initial) [])) as (r & Hr & Ho).
  - cbn [p_DsC WM_CREATE DsC_Mag]. lra.
  - cbn [p_Star p_DsC WM_CREATE DsC_Mag]. rewrite G.
    cbn [Polaris Star_Mag]. rewrite number_Polaris_Mag. lra.
  - exists r. split; [exact Hr|].
    cbn [p_Star p_DsC p_out app] in Ho. rewrite G in Ho.
    eexists. eexists. rewrite Ho. cbn [Polaris Star_Label].
    rewrite cstr_terminated by reflexivity. reflexivity.
Defined.

(** ** C3 and C7: the projector on binary64 *)

Section EQConvert_binary64.

Import Binary64.
Local Open Scope float_scope.

(** *** Arithmetic on a zero *)







(** *** The branch [TempVal >= 1.0] *)

Section Clamp.

Variable m : libm.
Variable DsC : DSCONTROL.
Variables RA Dec : float.

Hypothesis clamped : (1 <=? TempVal m DsC RA Dec) = true.



Hypothesis cos_finite : is_finite (cos m (az2 m DsC RA Dec)) = true.
Hypothesis sin_finite : is_finite (sin m (az2 m DsC RA Dec)) = true.
Hypothesis fFOV_not_zero : is_zero (fFOV DsC) = false.
Hypothesis fFOV_not_nan : is_nan (fFOV DsC) = false.
Hypothesis xyScale_finite : is_finite (xyScale DsC) = true.




End Clamp.




(** *** The argument of [asin] *)

Lemma below_minus_one_not_clamped t : (t <? -1) = true -> (1 <=? t) = false.
Proof.
  rewrite ltb_spec, leb_spec. unfold SFltb, SFleb.
  replace (Prim2SF (-1)) with (S754_finite true 4503599627370496 (-52)) by reflexivity.
  replace (Prim2SF 1) with (S754_finite false 4503599627370496 (-52)) by reflexivity.
  destruct (Prim2SF t) as [s|s| |s mt et]; cbn [SFcompare]; intro H;
    try destruct s; try discriminate H; reflexivity.
Qed.

(** C7 is not what the code does on [double].  [EQConvert] tests
    [TempVal >= 1.0] and nothing else before it calls [asin]: the altitude
    is [PI2] without a call when the test holds, and [asin(TempVal)]
    otherwise, so a [TempVal] below -1 reaches [asin], which is a domain
    error.  Rounding does produce such a value: for the view centred on
    RA 0, Dec -78 and the star at RA 180, Dec 78, [TempVal] is
    -1.0000000000000002, [asin] is called with it, and no pixel position
    comes out.  The test at 1.0 is met by rounding as well: for the centre
    of the same view [TempVal] is 1.0000000000000002, and [asin] is not
    called.  [atan2] is never called with both arguments zero. *)
Theorem EQConvert_asin_below_its_domain :
  forall (m : libm) (DsC : DSCONTROL) (RA Dec : float),
    ((1 <=? TempVal m DsC RA Dec) = true ->
     Alt m DsC RA Dec = PI2 /\ snd (Alt_call m DsC RA Dec) = []) /\
    ((1 <=? TempVal m DsC RA Dec) = false ->
     Alt m DsC RA Dec = asin m (TempVal m DsC RA Dec) /\
     snd (Alt_call m DsC RA Dec) = [call_asin (TempVal m DsC RA Dec)]) /\
    ((TempVal m DsC RA Dec <? -1) = true ->
     In (call_asin (TempVal m DsC RA Dec)) (EQConvert_calls m DsC RA Dec) /\
     domain_error (call_asin (TempVal m DsC RA Dec)) = true) /\
    ((p1 m DsC RA =? 0) = true -> (p2 m DsC RA Dec =? 0) = true ->
     Az m DsC RA Dec = 0 /\ snd (Az_call m DsC RA Dec) = []) /\
    (forall c : libm_call, In c (snd (Az_call m DsC RA Dec)) -> domain_error c = false) /\
    TempVal sample_libm (sample_view (-78) 60) 180 78 = -0x1.0000000000001p+0 /\
    EQConvert_calls sample_libm (sample_view (-78) 60) 180 78 =
      [call_atan2 0x1.671ee59d9ccecp-37 0x1p-53; call_asin (-0x1.0000000000001p+0)] /\
    EQConvert sample_libm (sample_view (-78) 60) 180 78 = None /\
    TempVal sample_libm (sample_view (-78) 60) 0 (-78) = 0x1.0000000000001p+0 /\
    EQConvert_calls sample_libm (sample_view (-78) 60) 0 (-78) =
      [call_atan2 0 (-0x1p-53)].
Proof.
  intros m DsC RA Dec.
  split; [|split; [|split; [|split; [|split]]]].
  - intro H. unfold Alt, Alt_call. now rewrite H.
  - intro H. unfold Alt, Alt_call. now rewrite H.
  - intro H. split.
    + unfold EQConvert_calls, Alt_call. rewrite (below_minus_one_not_clamped _ H).
      apply in_or_app. right. now left.
    + cbn [domain_error]. now rewrite H.
  - intros H1 H2. unfold Az, Az_call. now rewrite H1, H2.
  - intros c Hc. unfold Az_call in Hc.
    destruct ((p1 m DsC RA =? 0) && (p2 m DsC RA Dec =? 0)) eqn:E;
      cbn [snd In] in Hc; [contradiction|].
    destruct Hc as [<-|[]]. exact E.
  - vm_compute. repeat split.
Qed.

End EQConvert_binary64.

(** ** C8: [NormalizeZeroTwoPI] on binary64 *)

Module Binary64_facts.

Import Binary64.
Local Open Scope float_scope.

(** Subtracting [TWOPI] from [1e300] gives [1e300] back: the difference is
    rounded to the nearest [double]. *)
Lemma huge_absorbs_TWOPI : 1e300 - TWOPI = 1e300 /\ (TWOPI <=? 1e300) = true.
Proof. split; reflexivity. Qed.

Lemma while_ge_huge : forall fuel : nat, while_ge fuel 1e300 = None.
Proof.
  induction fuel as [|fuel IH]; [reflexivity|].
  cbn [while_ge]. destruct huge_absorbs_TWOPI as [-> ->]. exact IH.
Qed.

Lemma while_lt_small : forall fuel : nat, (2 <= fuel)%nat ->
  while_lt fuel (-1e-20) = Some TWOPI.
Proof. intros [|[|fuel]] H; [lia|lia|reflexivity]. Qed.

(** What the first loop leaves fails its test. *)
Lemma while_ge_result : forall (fuel : nat) (value t : float),
  while_ge fuel value = Some t -> (TWOPI <=? t) = false.
Proof.
  induction fuel as [|fuel IH]; intros value t H; [discriminate|].
  cbn [while_ge] in H. destruct (TWOPI <=? value) eqn:E.
  - now apply (IH (value - TWOPI)).
  - now injection H as <-.
Qed.

(** What the second loop leaves fails its test, and is its input or a sum
    of a negative value and [TWOPI]. *)
Lemma while_lt_result : forall (fuel : nat) (t r : float),
  while_lt fuel t = Some r ->
  (r <? 0) = false /\
  (r = t \/ exists x : float, (x <? 0) = true /\ r = x + TWOPI).
Proof.
  induction fuel as [|fuel IH]; intros t r H; [discriminate|].
  cbn [while_lt] in H. destruct (t <? 0) eqn:E.
  - destruct (IH (t + TWOPI) r H) as [H0 [H1|H1]].
    + split; [exact H0|]. right. exists t. now split.
    + split; [exact H0|]. now right.
  - injection H as <-. split; [exact E|now left].
Qed.

(** A value that fails both tests is returned as it is. *)
Lemma NormalizeZeroTwoPI_in_range : forall (fuel : nat) (value : float),
  (TWOPI <=? value) = false -> (value <? 0) = false -> (1 <= fuel)%nat ->
  NormalizeZeroTwoPI fuel value = Some value.
Proof.
  intros [|fuel] value H1 H2 Hf; [lia|].
  unfold NormalizeZeroTwoPI. cbn [while_ge]. rewrite H1.
  cbn [while_lt]. now rewrite H2.
Qed.

End Binary64_facts.

(** C8 is not what the code does on [double].  For the value 1e300 the
    first loop never ends: whatever the bound on its rounds, no result is
    returned.  For -1e-20 the result is [TWOPI] itself, which is not below
    [TWOPI]; and normalising that result again gives 0, so the function is
    not idempotent there. *)
Theorem NormalizeZeroTwoPI_binary64 :
  (forall fuel : nat, Binary64.NormalizeZeroTwoPI fuel 1e300%float = None) /\
  (forall fuel : nat, (2 <= fuel)%nat ->
     Binary64.NormalizeZeroTwoPI fuel (-1e-20)%float = Some Binary64.TWOPI /\
     Binary64.NormalizeZeroTwoPI fuel Binary64.TWOPI = Some 0%float) /\
  PrimFloat.ltb Binary64.TWOPI Binary64.TWOPI = false /\
  PrimFloat.eqb 0%float Binary64.TWOPI = false.
Proof.
  split; [|split; [|split; reflexivity]].
  - intro fuel. unfold Binary64.NormalizeZeroTwoPI.
    now rewrite Binary64_facts.while_ge_huge.
  - intros [|[|fuel]] H; [lia|lia|]. split; reflexivity.
Qed.

(** What [NormalizeZeroTwoPI] returns on [double], whenever its loops end:
    the result is not below 0; it reaches [TWOPI] only as the rounded sum of
    a negative value and [TWOPI]; and a result below [TWOPI] is returned
    unchanged when it is normalised again. *)
Theorem NormalizeZeroTwoPI_result :
  forall (fuel : nat) (value r : float),
    Binary64.NormalizeZeroTwoPI fuel value = Some r ->
    PrimFloat.ltb r 0%float = false /\
    (PrimFloat.leb Binary64.TWOPI r = true ->
     exists x : float,
       PrimFloat.ltb x 0%float = true /\ r = PrimFloat.add x Binary64.TWOPI) /\
    (PrimFloat.leb Binary64.TWOPI r = false ->
     forall fuel' : nat, (1 <= fuel')%nat ->
       Binary64.NormalizeZeroTwoPI fuel' r = Some r).
Proof.
  intros fuel value r H. unfold Binary64.NormalizeZeroTwoPI in H.
  destruct (Binary64.while_ge fuel value) as [t|] eqn:E; [|discriminate].
  pose proof (Binary64_facts.while_ge_result fuel value t E) as G.
  destruct (Binary64_facts.while_lt_result fuel t r H) as [L C].
  split; [exact L|]. split.
  - intro U. destruct C as [->|C]; [|exact C]. rewrite G in U. discriminate.
  - intros U fuel' Hf. now apply Binary64_facts.NormalizeZeroTwoPI_in_range.
Qed.

Lemma NormalizeZeroTwoPI_result_witness :
  Binary64.NormalizeZeroTwoPI 1 (PrimFloat.sub 7%float Binary64.TWOPI) =
  Some (PrimFloat.sub 7%float Binary64.TWOPI).
Proof.
  destruct (NormalizeZeroTwoPI_result 3 7%float (PrimFloat.sub 7%float Binary64.TWOPI))
    as (_ & _ & H); [reflexivity|].
  apply H; [reflexivity|lia].
Defined.
